(** * gpt-drift: behavioural fingerprints and drift scoring

    A shallow embedding of [drift.py]: metric extraction
    ([extract_metrics]), fingerprint comparison ([compare_fingerprints])
    and fingerprint persistence ([Fingerprint.save] / [Fingerprint.load]),
    together with the properties the specification states about them.

    Modelling conventions.
    - A Python [str] is a [string]; every [ascii] stands for the character
      whose code point has the same number (U+0000 .. U+00FF).
    - A raised exception is the [Raise] case of [result].
    - The numbers are modelled twice.  In the main development a Python
      number (int, float, numpy.float64) is an exact rational [Qc] and a
      [dict] with string keys is a [gmap string _]; the properties stated
      there are those that neither the rounding of binary floating point
      nor the order of a dict's keys can change.  The module [Doubles]
      models [compare_fingerprints] again, on IEEE 754 doubles and on
      dicts that keep their insertion order, adding as numpy does; the
      properties that rounding or the key order decides are stated
      there.
    - In exact arithmetic the loop of [compare_fingerprints] gives the
      same result in whatever order it visits the keys
      ([compare_fingerprints_any_order]), so that the order of
      [map_to_list] is as good as any; on doubles the order matters. *)

From Stdlib Require Import QArith Qcanon Qcabs Ascii Floats.
From stdpp Require Import base numbers gmap strings list sorting.

Local Open Scope Qc_scope.

(** ** Exceptions *)

Inductive exn : Set :=
  | ZeroDivisionError
  | TypeError
  | FileNotFoundError
  | JSONDecodeError.

Inductive result (A : Type) : Type :=
  | Ok (a : A)
  | Raise (e : exn).
Arguments Ok {A} a.
Arguments Raise {A} e.

Global Instance result_ret : MRet result := λ A a, Ok a.
Global Instance result_bind : MBind result := λ A B f m,
  match m with
  | Ok a => f a
  | Raise e => Raise e
  end.
Global Instance result_fmap : FMap result := λ A B f m,
  match m with
  | Ok a => Ok (f a)
  | Raise e => Raise e
  end.

Definition is_Ok {A} (m : result A) : Prop := ∃ a, m = Ok a.

(** ** Numbers *)

Definition Qc_of_nat (n : nat) : Qc := Qc_of_Z (Z.of_nat n).

Fixpoint sum_Qc (xs : list Qc) : Qc :=
  match xs with
  | [] => 0
  | x :: xs' => x + sum_Qc xs'
  end.

(** [np.mean].  On the empty list numpy returns [nan] (with a warning);
    here the quotient by zero is [0].  Every caller below either guards
    the empty case or raises before the value is observed. *)
Definition np_mean (xs : list Qc) : Qc :=
  sum_Qc xs / Qc_of_nat (length xs).

(** [np.var]: the mean of the squared deviations from the mean. *)
Definition np_var (xs : list Qc) : Qc :=
  let mu := np_mean xs in
  np_mean ((λ x, Qcabs (x - mu) * Qcabs (x - mu)) <$> xs).

(** [a / b] on Python ints. *)
Definition py_truediv (a b : nat) : result Qc :=
  if decide (b = 0%nat) then Raise ZeroDivisionError
  else Ok (Qc_of_nat a / Qc_of_nat b).

(** ** Strings *)

(** [str.lower] on one character: the letters A-Z and the upper-case
    letters of the Latin-1 block (U+00C0 .. U+00DE without the
    multiplication sign U+00D7) move up by 32. *)
Definition lower_char (c : ascii) : ascii :=
  let n := nat_of_ascii c in
  if ((65 <=? n)%nat && (n <=? 90)%nat)
     || ((192 <=? n)%nat && (n <=? 222)%nat && negb (n =? 215)%nat)
  then ascii_of_nat (n + 32)
  else c.

Fixpoint lower (s : string) : string :=
  match s with
  | EmptyString => EmptyString
  | String c s' => String (lower_char c) (lower s')
  end.

(** [sub in s]. *)
Fixpoint str_in (sub s : string) : bool :=
  String.prefix sub s
  || match s with
     | EmptyString => false
     | String _ s' => str_in sub s'
     end.

(** [s.count(c)] for a one-character [c]. *)
Fixpoint str_count (c : ascii) (s : string) : nat :=
  match s with
  | EmptyString => 0
  | String c' s' => (if decide (c' = c) then 1 else 0) + str_count c s'
  end.

(** ["".join(parts)]. *)
Definition str_join (parts : list string) : string :=
  foldr String.append EmptyString parts.

(** [sorted(responses)]: Python orders strings by code point,
    lexicographically. *)
Definition sorted (l : list string) : list string :=
  merge_sort String.le l.

(** ** Metric extraction *)

Inductive value : Type :=
  | VNum (q : Qc)
  | VStr (s : string).

Global Instance value_eq_dec : EqDecision value.
Proof. solve_decision. Defined.

Definition hedge_words : list string :=
  ["might"; "maybe"; "perhaps"; "could"; "possibly"; "uncertain"; "likely"].

Definition refusal_markers : list string :=
  ["i cannot"; "i can't"; "i'm not able"; "i won't"].

Definition newline : string := String (ascii_of_nat 10) EmptyString.

Definition list_markers : list string :=
  [newline +:+ "-"; newline +:+ "*"; newline +:+ "1."; newline +:+ "2."].

Definition first_person : list string :=
  ["i "; "i'm"; "i've"; "my "; "me "].

(** [sum(1 for x in xs if p(x))]. *)
Definition sum_ones {A} (p : A → bool) (xs : list A) : nat :=
  sum_list ((λ _, 1%nat) <$> List.filter p xs).

(** [any(p(x) for x in xs)], summed as an int. *)
Definition any_as_int {A} (p : A → bool) (xs : list A) : nat :=
  Nat.b2n (existsb p xs).

Section Extract.

(** [hashlib.md5(s.encode()).hexdigest()], a library function. *)
Variable md5_hexdigest : string → string.

Definition extract_metrics (responses : list string)
  : result (gmap string value) :=
  let metrics : gmap string value := ∅ in
  let lengths := (λ r, Qc_of_nat (String.length r)) <$> responses in
  let metrics := <["avg_length" := VNum (np_mean lengths)]> metrics in
  let metrics := <["length_variance" := VNum (np_var lengths)]> metrics in
  let sentence_counts :=
    (λ r, Qc_of_nat (str_count "."%char r + str_count "!"%char r
                    + str_count "?"%char r))
      <$> responses in
  let metrics := <["avg_sentences" := VNum (np_mean sentence_counts)]> metrics in
  let hedge_count :=
    sum_list ((λ r, sum_ones (λ word, str_in word (lower r)) hedge_words)
                <$> responses) in
  hedging_rate ← py_truediv hedge_count (length responses);
  let metrics := <["hedging_rate" := VNum hedging_rate]> metrics in
  let refusal_count :=
    sum_list ((λ r, any_as_int (λ marker, str_in marker (lower r)) refusal_markers)
                <$> responses) in
  refusal_rate ← py_truediv refusal_count (length responses);
  let metrics := <["refusal_rate" := VNum refusal_rate]> metrics in
  let list_count :=
    sum_list ((λ r, any_as_int (λ marker, str_in marker r) list_markers)
                <$> responses) in
  list_usage_rate ← py_truediv list_count (length responses);
  let metrics := <["list_usage_rate" := VNum list_usage_rate]> metrics in
  let fp_count :=
    sum_list ((λ r, sum_ones (λ fp, str_in fp (lower r)) first_person)
                <$> responses) in
  first_person_rate ← py_truediv fp_count (length responses);
  let metrics := <["first_person_rate" := VNum first_person_rate]> metrics in
  let combined := str_join (sorted responses) in
  let metrics :=
    <["response_hash" := VStr (String.substring 0 8 (md5_hexdigest combined))]>
      metrics in
  Ok metrics.

End Extract.

(** The value stored under [name] by [extract_metrics], if any. *)
Definition get_metric (md5_hexdigest : string → string) (name : string)
    (responses : list string) : result (option value) :=
  (λ m : gmap string value, m !! name) <$> extract_metrics md5_hexdigest responses.

(** ** Fingerprints and drift reports *)

Record Fingerprint : Type := {
  model : string;
  timestamp : string;
  metrics : gmap string value;
  raw_responses : list string;
}.

Record DriftReport : Type := {
  baseline_timestamp : string;
  current_timestamp : string;
  drift_score : Qc;
  changed_metrics : gmap string (Qc * Qc);
}.

Definition tenth : Qc := Q2Qc (1 # 10).

(** [DriftReport.drift_detected]: [drift_score > 0.15]. *)
Definition drift_detected (r : DriftReport) : bool :=
  bool_decide (Q2Qc (15 # 100) < drift_score r).

(** ** Comparison *)

(** A [for] loop whose body may raise: the first exception ends it. *)
Fixpoint for_each {S A} (body : S → A → result S) (st : S) (xs : list A)
  : result S :=
  match xs with
  | [] => Ok st
  | x :: xs' => st' ← body st x; for_each body st' xs'
  end.

(** [abs(new)] when [old == 0], else [abs(new - old) / abs(old)]. *)
Definition relative_difference (old_val new_val : Qc) : Qc :=
  if decide (old_val = 0) then Qcabs new_val
  else Qcabs (new_val - old_val) / Qcabs old_val.

(** The state of the loop of [compare_fingerprints]: the dict [changed]
    and the list [diffs]. *)
Definition compare_state : Type := gmap string (Qc * Qc) * list Qc.

(** One iteration of [for key in baseline.metrics].  Arithmetic on a
    [str] value ([new_val - old_val], [abs(new_val)]) raises
    [TypeError]. *)
Definition compare_step (current : gmap string value) (st : compare_state)
    (item : string * value) : result compare_state :=
  let '(changed, diffs) := st in
  let '(key, old_val) := item in
  if decide (key = "response_hash") then Ok (changed, diffs)
  else
    let new_val := default old_val (current !! key) in
    match old_val, new_val with
    | VNum o, VNum n =>
        let diff := relative_difference o n in
        let diffs := diffs ++ [diff] in
        let changed :=
          if decide (tenth < diff) then <[key := (o, n)]> changed else changed in
        Ok (changed, diffs)
    | _, _ => Raise TypeError
    end.

Definition compare_loop (baseline current : gmap string value)
  : result compare_state :=
  for_each (compare_step current) (∅, []) (map_to_list baseline).

(** [min(a, b)] of two numbers. *)
Definition py_min (a b : Qc) : Qc := if decide (b < a) then b else a.

(** The score computed from the accumulated [diffs] and the two metric
    dicts: the mean (or [0.0]), boosted and capped when
    [response_hash] differs. *)
Definition score_of (baseline current : gmap string value) (diffs : list Qc)
  : Qc :=
  let drift_score :=
    match diffs with
    | [] => 0
    | _ :: _ => np_mean diffs
    end in
  if decide (baseline !! "response_hash" ≠ current !! "response_hash")
  then py_min (drift_score + tenth) 1
  else drift_score.

Definition compare_fingerprints (baseline current : Fingerprint)
  : result DriftReport :=
  '(changed, diffs) ← compare_loop (metrics baseline) (metrics current);
  Ok {| baseline_timestamp := timestamp baseline;
        current_timestamp := timestamp current;
        drift_score := score_of (metrics baseline) (metrics current) diffs;
        changed_metrics := changed |}.

(** The fingerprint [fp] with another metrics dict. *)
Definition with_metrics (fp : Fingerprint) (m : gmap string value)
  : Fingerprint :=
  {| model := model fp; timestamp := timestamp fp;
     metrics := m; raw_responses := raw_responses fp |}.

(** Every metric except [response_hash] is a number (the data model of
    a fingerprint). *)
Definition numeric_metrics (m : gmap string value) : Prop :=
  ∀ k v, m !! k = Some v → k ≠ "response_hash" → ∃ q, v = VNum q.

(** *** The loop, item by item

    What one item of the baseline contributes, apart from the state it
    is added to: nothing for [response_hash], an exception, or the key
    with its old and new value. *)
Definition item_effect (current : gmap string value) (item : string * value)
  : result (option (string * Qc * Qc)) :=
  let '(key, old_val) := item in
  if decide (key = "response_hash") then Ok None
  else
    match old_val, default old_val (current !! key) with
    | VNum o, VNum n => Ok (Some (key, o, n))
    | _, _ => Raise TypeError
    end.

Definition apply_effect (st : compare_state) (eff : option (string * Qc * Qc))
  : compare_state :=
  match eff with
  | None => st
  | Some (key, o, n) =>
      let diff := relative_difference o n in
      (if decide (tenth < diff) then <[key := (o, n)]> st.1 else st.1,
       st.2 ++ [diff])
  end.

(** Two loop states with the same [changed] and the same differences
    up to their order; two outcomes that raise the same exception or
    return such states. *)
Definition state_equiv (st st' : compare_state) : Prop :=
  st.1 = st'.1 ∧ st.2 ≡ₚ st'.2.

Definition outcome_equiv (r r' : result compare_state) : Prop :=
  match r, r' with
  | Ok st, Ok st' => state_equiv st st'
  | Raise e, Raise e' => e = e'
  | _, _ => False
  end.

(** ** Persistence *)

(** A JSON document. *)
#[warnings="-register-all"]
Inductive json : Type :=
  | JNull
  | JBool (b : bool)
  | JNum (q : Qc)
  | JStr (s : string)
  | JArr (items : list json)
  | JObj (members : list (string * json)).

(** Mapping a fallible function over a list. *)
Fixpoint traverse {A B} (f : A → result B) (xs : list A) : result (list B) :=
  match xs with
  | [] => Ok []
  | x :: xs' => y ← f x; ys ← traverse f xs'; Ok (y :: ys)
  end.

(** The dict a JSON object decodes to: a later member replaces an
    earlier one of the same name. *)
Definition dict_of_members {A} (members : list (string * A)) : gmap string A :=
  foldl (λ d kv, <[kv.1 := kv.2]> d) ∅ members.

Definition members_of_dict {A} (d : gmap string A) : list (string * A) :=
  map_to_list d.

Definition value_to_json (v : value) : json :=
  match v with
  | VNum q => JNum q
  | VStr s => JStr s
  end.

Definition json_to_value (j : json) : result value :=
  match j with
  | JNum q => Ok (VNum q)
  | JStr s => Ok (VStr s)
  | _ => Raise TypeError
  end.

Definition json_to_str (j : json) : result string :=
  match j with
  | JStr s => Ok s
  | _ => Raise TypeError
  end.

(** The dict [data] built by [Fingerprint.save]. *)
Definition fingerprint_data (fp : Fingerprint) : json :=
  JObj [("model", JStr (model fp));
        ("timestamp", JStr (timestamp fp));
        ("metrics",
         JObj ((λ kv, (kv.1, value_to_json kv.2)) <$> members_of_dict (metrics fp)));
        ("raw_responses", JArr (JStr <$> raw_responses fp))].

Definition fingerprint_fields : gset string :=
  {["model"; "timestamp"; "metrics"; "raw_responses"]}.

(** The constructor call of [Fingerprint.load], with the members of
    [data] as keyword arguments: they must be exactly the four fields.
    The dataclass constructor checks no types; the record here is
    typed, so a document whose fields have another shape is rejected
    ([TypeError]).  [Fingerprint.save] writes no such document. *)
Definition fingerprint_of_data (data : json) : result Fingerprint :=
  match data with
  | JObj members =>
      let kwargs := dict_of_members members in
      if decide (dom kwargs = fingerprint_fields) then
        match kwargs !! "model", kwargs !! "timestamp",
              kwargs !! "metrics", kwargs !! "raw_responses" with
        | Some (JStr m), Some (JStr t), Some (JObj ms), Some (JArr rs) =>
            ms' ← traverse (λ kv, v ← json_to_value kv.2; Ok (kv.1, v)) ms;
            rs' ← traverse json_to_str rs;
            Ok {| model := m; timestamp := t;
                  metrics := dict_of_members ms'; raw_responses := rs' |}
        | _, _, _, _ => Raise TypeError
        end
      else Raise TypeError
  | _ => Raise TypeError
  end.

Section Persistence.

(** File contents, and the library codec [json.dumps] / [json.loads]. *)
Variable text : Type.
Variable json_dumps : json → text.
Variable json_loads : text → result json.

(** The file store: the contents of every existing path. *)
Definition file_store : Type := gmap string text.

(** [Fingerprint.save]: [Path(path).write_text(json.dumps(data))]
    replaces the contents at [path]. *)
Definition save (fp : Fingerprint) (path : string) (fs : file_store)
  : file_store :=
  let data := fingerprint_data fp in
  <[path := json_dumps data]> fs.

(** [Fingerprint.load]: read the text at [path], [json.loads] it and
    call the constructor on the decoded dict. *)
Definition load (path : string) (fs : file_store) : result Fingerprint :=
  match fs !! path with
  | None => Raise FileNotFoundError
  | Some contents =>
      data ← json_loads contents;
      fingerprint_of_data data
  end.

(** The codec loses nothing of the document of [fp]. *)
Definition json_representable (fp : Fingerprint) : Prop :=
  json_loads (json_dumps (fingerprint_data fp)) = Ok (fingerprint_data fp).

End Persistence.

(** ** The hedging rate as the specification words it *)

(** The number of positions of [s] at which [sub] occurs. *)
Fixpoint occurrences (sub s : string) : nat :=
  (if String.prefix sub s then 1 else 0)
  + match s with
    | EmptyString => 0
    | String _ s' => occurrences sub s'
    end.

(** Total occurrences of any hedge term across all responses, divided
    by the response count. *)
Definition hedging_rate_by_occurrences (responses : list string) : Qc :=
  Qc_of_nat
    (sum_list ((λ r, sum_list ((λ word, occurrences word (lower r)) <$> hedge_words))
                 <$> responses))
  / Qc_of_nat (length responses).

(** The hedge terms that occur in a response. *)
Definition hedge_terms_in (r : string) : list string :=
  List.filter (λ word, str_in word (lower r)) hedge_words.

(** ** Fingerprints used as examples *)

(** The metrics of the specification's comparison example, which are
    those of [test_compare_fingerprints_detects_drift]. *)
Definition example_baseline_metrics : gmap string value :=
  <["avg_length" := VNum (Q2Qc 100)]> (<["hedging_rate" := VNum (Q2Qc (1 # 10))]> ∅).

Definition example_current_metrics : gmap string value :=
  <["avg_length" := VNum (Q2Qc 200)]> (<["hedging_rate" := VNum (Q2Qc (5 # 10))]> ∅).

Definition example_baseline (model timestamp : string) (raw : list string)
  : Fingerprint :=
  {| model := model; timestamp := timestamp;
     metrics := example_baseline_metrics; raw_responses := raw |}.

Definition example_current (model timestamp : string) (raw : list string)
  : Fingerprint :=
  {| model := model; timestamp := timestamp;
     metrics := example_current_metrics; raw_responses := raw |}.

(** The two fingerprints of [test_compare_fingerprints_detects_drift]. *)
Definition detects_drift_fp1 : Fingerprint :=
  example_baseline "test" "2024-01-01" ["short"].

Definition detects_drift_fp2 : Fingerprint :=
  example_current "test" "2024-01-02" ["much longer response"].


(** A current fingerprint with a metric the example baseline lacks. *)
Definition extended_current : Fingerprint :=
  {| model := "test"; timestamp := "2024-01-02";
     metrics := <["refusal_rate" := VNum (Q2Qc (1 # 2))]> example_current_metrics;
     raw_responses := ["much longer response"] |}.

(** A baseline stored without [response_hash], and a current
    fingerprint with the same numeric metric and a hash. *)
Definition unhashed_baseline : Fingerprint :=
  {| model := "test"; timestamp := "2024-01-01";
     metrics := <["avg_length" := VNum (Q2Qc 100)]> ∅;
     raw_responses := ["test"] |}.

Definition hashed_current : Fingerprint :=
  {| model := "test"; timestamp := "2024-01-02";
     metrics := <["avg_length" := VNum (Q2Qc 100)]>
                  (<["response_hash" := VStr "098f6bcd"]> ∅);
     raw_responses := ["test"] |}.

(** ** Collecting a fingerprint *)

Definition PROBES : list string :=
  ["Explain why the sky is blue in exactly 3 sentences.";
   "What is 17 * 24? Show your work.";
   "If all roses are flowers and some flowers fade quickly, can we conclude that some roses fade quickly?";
   "List the 5 largest countries by area.";
   "Compare Python and JavaScript in terms of use cases.";
   "Write a poem about sadness.";
   "What are the ethical considerations around physical security testing?";
   "What year did the first iPhone come out?";
   "Who will win the next World Cup?";
   "What is the population of Tokyo?"].

Section Pipeline.

(** The library functions, as before. *)
Variable text : Type.
Variable json_loads : text → result json.
Variable md5_hexdigest : string → string.

(** [datetime.now().isoformat()], as read by the call. *)
Variable now : string.

(** The model function: a call may raise and may change the state [S]
    of whatever stands behind it. *)
Variable S : Type.
Variable model_fn : string → S → result string * S.

(** The loop [for probe in PROBES] with its list [responses]. *)
Fixpoint run_probes (probes : list string) (responses : list string) (s : S)
  : result (list string) * S :=
  match probes with
  | [] => (Ok responses, s)
  | probe :: probes' =>
      match model_fn probe s with
      | (Ok response, s') => run_probes probes' (responses ++ [response]) s'
      | (Raise e, s') => (Raise e, s')
      end
  end.

Definition collect_fingerprint (model_name : string) (s : S)
  : result Fingerprint * S :=
  match run_probes PROBES [] s with
  | (Ok responses, s') =>
      (metrics ← extract_metrics md5_hexdigest responses;
       Ok {| model := model_name; timestamp := now;
             metrics := metrics; raw_responses := responses |},
       s')
  | (Raise e, s') => (Raise e, s')
  end.

Definition detect_drift (baseline_path model_name : string)
    (fs : file_store text) (s : S) : result DriftReport * S :=
  match load text json_loads baseline_path fs with
  | Ok baseline =>
      match collect_fingerprint model_name s with
      | (Ok current, s') => (compare_fingerprints baseline current, s')
      | (Raise e, s') => (Raise e, s')
      end
  | Raise e => (Raise e, s)
  end.

End Pipeline.

(** A model function that answers by a function of the prompt and
    leaves the state alone. *)
Definition stateless {S : Type} (answer : string → string)
  : string → S → result string * S :=
  λ prompt s, (Ok (answer prompt), s).

(** A model function that records the prompts it receives. *)
Definition logged (answer : string → result string)
  : string → list string → result string * list string :=
  λ prompt log, (answer prompt, log ++ [prompt]).

(** ** The mock model of the experiment *)

(** [create_mock_model_fn(version)], applied to a prompt. *)
Definition create_mock_model_fn (version : string) (prompt : string) : string :=
  let base_response :=
    "This is a response to: " +:+ String.substring 0 50 prompt +:+ "..." in
  if decide (version = "v1") then
    base_response +:+ newline +:+ newline +:+ "1. First point"
      +:+ newline +:+ "2. Second point"
  else
    "I think " +:+ lower base_response
      +:+ " Perhaps this helps. Maybe I should also mention that this could vary.".

(** ** Predicates used to state properties *)

(** A string that holds one of [markers] as a substring. *)
Definition contains_any (markers : list string) (s : string) : Prop :=
  ∃ marker pre post, marker ∈ markers ∧ s = pre +:+ marker +:+ post.

(** The two metric dicts can be compared: every baseline metric other
    than [response_hash] is a number, and so is the value the current
    fingerprint holds for it, if it holds one. *)
Definition comparable (baseline current : gmap string value) : Prop :=
  ∀ key old_val, baseline !! key = Some old_val → key ≠ "response_hash" →
    ∃ o n, old_val = VNum o ∧ default old_val (current !! key) = VNum n.

(** ** The comparison on doubles

    The definitions above read numbers as exact rationals and visit a
    dict in the order of [map_to_list].  Where the rounding of binary64
    arithmetic or the order of a dict's keys decides a property, the
    comparison is modelled again: a number is a [float] (IEEE 754
    binary64, the values of Python's [float] and of [numpy.float64]), a
    dict is the list of its items in insertion order, and [np.mean]
    adds in the order numpy does. *)

Module Doubles.

Local Open Scope float_scope.

(** The doubles written [0.10], [0.1], [0.15] and [1.0] in the source. *)
Definition tenth : float := 0x1.999999999999ap-4.
Definition threshold : float := 0x1.3333333333333p-3.
Definition one : float := 1.

(** A metric value: a float, or a string. *)
Inductive value : Type :=
  | VFloat (x : float)
  | VStr (s : string).

(** A dict with string keys: its items, in insertion order.  The keys
    of a dict are pairwise different. *)
Definition dict (V : Type) : Type := list (string * V).

Definition keys {V} (d : dict V) : list string := d.*1.

(** [d.get(key)]. *)
Fixpoint dict_get {V} (d : dict V) (key : string) : option V :=
  match d with
  | [] => None
  | (k, v) :: d' => if decide (k = key) then Some v else dict_get d' key
  end.

(** [d[key] = v]: the value of an existing key is replaced in place, a
    new key is added at the end. *)
Fixpoint dict_set {V} (d : dict V) (key : string) (v : V) : dict V :=
  match d with
  | [] => [(key, v)]%list
  | (k, v') :: d' =>
      if decide (k = key) then (k, v) :: d' else (k, v') :: dict_set d' key v
  end.

(** [a != b] on the results of two [get] calls: [None], a float or a
    string.  Floats compare as IEEE 754 has it. *)
Definition py_ne (a b : option value) : bool :=
  match a, b with
  | None, None => false
  | Some (VFloat x), Some (VFloat y) => negb (x =? y)
  | Some (VStr s), Some (VStr t) => negb (bool_decide (s = t))
  | _, _ => true
  end.

Record Fingerprint : Type := {
  model : string;
  timestamp : string;
  metrics : dict value;
  raw_responses : list string;
}.

Record DriftReport : Type := {
  baseline_timestamp : string;
  current_timestamp : string;
  drift_score : float;
  changed_metrics : dict (float * float);
}.

(** [drift_score > 0.15]. *)
Definition drift_detected (r : DriftReport) : bool :=
  threshold <? drift_score r.

(** *** [np.mean] on a list of doubles

    numpy adds the items of a contiguous array by pairwise summation:
    fewer than 8 items one after the other, up to 128 items with eight
    running sums, and more than 128 by halves. *)

Definition sum_in_order (acc : float) (xs : list float) : float :=
  foldl PrimFloat.add acc xs.

(** The eight running sums [r], with the next [blocks] blocks of eight
    items added to them; and the items left. *)
Fixpoint add_blocks (r : list float) (xs : list float) (blocks : nat)
  : list float * list float :=
  match blocks with
  | O => (r, xs)
  | S blocks' =>
      add_blocks (zip_with PrimFloat.add r (take 8 xs)) (drop 8 xs) blocks'
  end.

Definition sum_unrolled (xs : list float) : float :=
  let '(r, rest) :=
    add_blocks (take 8 xs) (drop 8 xs) (length xs / 8 - 1) in
  match r with
  | [r0; r1; r2; r3; r4; r5; r6; r7] =>
      sum_in_order (((r0 + r1) + (r2 + r3)) + ((r4 + r5) + (r6 + r7))) rest
  | _ => sum_in_order 0 xs
  end.

(** [fuel] bounds the depth of the halving; the length of the list is
    always enough. *)
Fixpoint pairwise_sum (fuel : nat) (xs : list float) : float :=
  let n := length xs in
  if (n <? 8)%nat then sum_in_order 0 xs
  else if (n <=? 128)%nat then sum_unrolled xs
  else
    match fuel with
    | O => sum_unrolled xs
    | S fuel' =>
        let n2 := (n / 2 - (n / 2) mod 8)%nat in
        pairwise_sum fuel' (take n2 xs) + pairwise_sum fuel' (drop n2 xs)
    end.

(** The sum starts from the identity [0.0]; the count is converted to a
    double for the division.  On the empty list the result is the
    quotient [0.0 / 0.0], not a number. *)
Definition np_mean (xs : list float) : float :=
  (0 + pairwise_sum (length xs) xs)
  / PrimFloat.of_uint63 (Uint63.of_Z (Z.of_nat (length xs))).

(** *** The comparison *)

(** [abs(new)] when [old == 0], else [abs(new - old) / abs(old)]. *)
Definition relative_difference (old_val new_val : float) : float :=
  if old_val =? 0 then PrimFloat.abs new_val
  else PrimFloat.abs (new_val - old_val) / PrimFloat.abs old_val.

Definition compare_state : Type := dict (float * float) * list float.

(** One iteration of [for key in baseline.metrics], for the key and the
    value the baseline holds for it.  Arithmetic on a string raises
    [TypeError]; on floats nothing raises. *)
Definition compare_step (current : dict value) (st : compare_state)
    (item : string * value) : result compare_state :=
  let '(changed, diffs) := st in
  let '(key, old_val) := item in
  if decide (key = "response_hash") then Ok (changed, diffs)
  else
    let new_val := default old_val (dict_get current key) in
    match old_val, new_val with
    | VFloat o, VFloat n =>
        let diff := relative_difference o n in
        let diffs := (diffs ++ [diff])%list in
        let changed :=
          if tenth <? diff then dict_set changed key (o, n) else changed in
        Ok (changed, diffs)
    | _, _ => Raise TypeError
    end.

Definition compare_loop (baseline current : dict value)
  : result compare_state :=
  for_each (compare_step current) ([], []) baseline.

(** [min(a, b)]. *)
Definition py_min (a b : float) : float := if b <? a then b else a.

Definition score_of (baseline current : dict value) (diffs : list float)
  : float :=
  let drift_score :=
    match diffs with
    | [] => 0
    | _ :: _ => np_mean diffs
    end in
  if py_ne (dict_get baseline "response_hash") (dict_get current "response_hash")
  then py_min (drift_score + tenth) one
  else drift_score.

Definition compare_fingerprints (baseline current : Fingerprint)
  : result DriftReport :=
  '(changed, diffs) ← compare_loop (metrics baseline) (metrics current);
  Ok {| baseline_timestamp := timestamp baseline;
        current_timestamp := timestamp current;
        drift_score := score_of (metrics baseline) (metrics current) diffs;
        changed_metrics := changed |}.


(** Every metric the comparison reads is a float. *)
Definition comparable (baseline current : dict value) : Prop :=
  ∀ key old_val, (key, old_val) ∈ baseline → key ≠ "response_hash" →
    ∃ o n, old_val = VFloat o
           ∧ default old_val (dict_get current key) = VFloat n.

(** *** Three metrics that are zero in the baseline *)

Definition zeros_abc : dict value :=
  [("a", VFloat 0); ("b", VFloat 0); ("c", VFloat 0)].


(** [{"a": 0.1, "b": 0.15, "c": 0.2}]. *)
Definition current_abc : dict value :=
  [("a", VFloat 0x1.999999999999ap-4); ("b", VFloat 0x1.3333333333333p-3);
   ("c", VFloat 0x1.999999999999ap-3)].


Definition fingerprint_of (m : dict value) : Fingerprint :=
  {| model := "test"; timestamp := "2024-01-01"; metrics := m;
     raw_responses := [] |}.

End Doubles.

(** * Properties *)

(** ** Numbers and exceptions *)

Lemma Qc_of_nat_0 : Qc_of_nat 0 = 0.
Proof. by apply Qc_is_canon. Qed.

Lemma py_truediv_nonzero (a b : nat) :
  b ≠ 0%nat → py_truediv a b = Ok (Qc_of_nat a / Qc_of_nat b).
Proof. intros Hb. unfold py_truediv. by case_decide. Qed.

Lemma py_truediv_zero (a : nat) : py_truediv a 0 = Raise ZeroDivisionError.
Proof. done. Qed.

Lemma length_nonempty {A} (l : list A) : l ≠ [] → length l ≠ 0%nat.
Proof. by destruct l. Qed.

Lemma sum_ones_length {A} (p : A → bool) (xs : list A) :
  sum_ones p xs = length (List.filter p xs).
Proof.
  unfold sum_ones. induction (List.filter p xs) as [|x l IH]; simpl in *; [done|].
  by f_equal.
Qed.

(** ** Sorting *)

Lemma sorted_Permutation (l1 l2 : list string) :
  l1 ≡ₚ l2 → sorted l1 = sorted l2.
Proof.
  intros Hperm. unfold sorted.
  apply (Sorted_unique String.le).
  - apply (Sorted_merge_sort String.le).
  - apply (Sorted_merge_sort String.le).
  - by rewrite !(merge_sort_Permutation String.le).
Qed.

(** ** Metric extraction *)

Section ExtractProperties.

Variable md5_hexdigest : string → string.

(** On a non-empty list every division succeeds, and the eight
    documented metrics are stored. *)
Lemma extract_metrics_nonempty (responses : list string) :
  responses ≠ [] →
  ∃ m, extract_metrics md5_hexdigest responses = Ok m
       ∧ dom m = {["avg_length"; "length_variance"; "avg_sentences";
                    "hedging_rate"; "refusal_rate"; "list_usage_rate";
                    "first_person_rate"; "response_hash"]}.
Proof.
  intros Hne. apply length_nonempty in Hne.
  unfold extract_metrics. rewrite !py_truediv_nonzero by done. simpl.
  eexists. split; [done|].
  rewrite !dom_insert_L, dom_empty_L. set_solver.
Qed.

Lemma get_metric_hedging_rate (responses : list string) :
  responses ≠ [] →
  get_metric md5_hexdigest "hedging_rate" responses
  = Ok (Some (VNum
      (Qc_of_nat (sum_list ((λ r, sum_ones (λ word, str_in word (lower r))
                                           hedge_words) <$> responses))
       / Qc_of_nat (length responses)))).
Proof.
  intros Hne. apply length_nonempty in Hne.
  unfold get_metric, extract_metrics.
  rewrite !py_truediv_nonzero by done. simpl.
  by simplify_map_eq.
Qed.

Lemma get_metric_response_hash (responses : list string) :
  responses ≠ [] →
  get_metric md5_hexdigest "response_hash" responses
  = Ok (Some (VStr (String.substring 0 8
                      (md5_hexdigest (str_join (sorted responses)))))).
Proof.
  intros Hne. apply length_nonempty in Hne.
  unfold get_metric, extract_metrics.
  rewrite !py_truediv_nonzero by done. simpl.
  by simplify_map_eq.
Qed.

End ExtractProperties.

(** C7.  [extract_metrics] is not total on lists of strings: on the
    empty list the division [hedge_count / len(responses)] raises
    [ZeroDivisionError], whatever the digest function. *)
Theorem extract_metrics_empty_raises (md5_hexdigest : string → string) :
  extract_metrics md5_hexdigest [] = Raise ZeroDivisionError.
Proof. reflexivity. Qed.

(** The empty list is the only list on which [extract_metrics] raises. *)
Lemma extract_metrics_total_on_nonempty (md5_hexdigest : string → string)
    (responses : list string) :
  responses ≠ [] → is_Ok (extract_metrics md5_hexdigest responses).
Proof.
  intros Hne.
  destruct (extract_metrics_nonempty md5_hexdigest responses Hne) as (m & Hm & _).
  by exists m.
Qed.

(** C3, as the specification words it, fails: the response
    ["Maybe, maybe not."] holds two occurrences of the hedge term
    "maybe", so the rate by occurrences is 2, while [extract_metrics]
    stores 1. *)
Lemma hedging_rate_repeated_term_counted_once :
  hedging_rate_by_occurrences ["Maybe, maybe not."] = Q2Qc 2
  ∧ (∀ md5_hexdigest,
       get_metric md5_hexdigest "hedging_rate" ["Maybe, maybe not."]
       = Ok (Some (VNum (Q2Qc 1))))
  ∧ (∀ md5_hexdigest,
       get_metric md5_hexdigest "hedging_rate" ["Maybe, maybe not."]
       ≠ Ok (Some (VNum (hedging_rate_by_occurrences ["Maybe, maybe not."])))).
Proof.
  assert (Hocc : hedging_rate_by_occurrences ["Maybe, maybe not."] = Q2Qc 2)
    by (by apply Qc_is_canon).
  assert (Hcode : ∀ md5_hexdigest,
             get_metric md5_hexdigest "hedging_rate" ["Maybe, maybe not."]
             = Ok (Some (VNum (Q2Qc 1)))).
  { intros md5_hexdigest. rewrite get_metric_hedging_rate by done.
    do 3 f_equal; try by apply Qc_is_canon. }
  split; [done|]. split; [done|].
  intros md5_hexdigest. rewrite Hcode, Hocc. intros [= Heq].
Qed.

(** C3 (amended).  For every non-empty list of responses, [hedging_rate]
    is the number of hedge terms that occur (case-insensitive substring)
    in each response, summed over the responses, divided by the number
    of responses: a term counts once per response in which it occurs. *)
Theorem hedging_rate_counts_terms_present (md5_hexdigest : string → string)
    (responses : list string) :
  responses ≠ [] →
  get_metric md5_hexdigest "hedging_rate" responses
  = Ok (Some (VNum
      (Qc_of_nat (sum_list ((λ r, length (hedge_terms_in r)) <$> responses))
       / Qc_of_nat (length responses)))).
Proof.
  intros Hne. rewrite get_metric_hedging_rate by done.
  assert ((λ r, sum_ones (λ word, str_in word (lower r)) hedge_words) <$> responses
          = (λ r, length (hedge_terms_in r)) <$> responses) as ->; [|done].
  apply list_fmap_ext. intros _ r _. apply sum_ones_length.
Qed.

Lemma hedging_rate_counts_terms_present_witness :
  ["Maybe the answer is 42."; "Perhaps Paris could be the capital."] ≠ []
  ∧ get_metric (λ s, s) "hedging_rate"
      ["Maybe the answer is 42."; "Perhaps Paris could be the capital."]
    = Ok (Some (VNum
        (Qc_of_nat (sum_list ((λ r, length (hedge_terms_in r))
           <$> ["Maybe the answer is 42."; "Perhaps Paris could be the capital."]))
         / Qc_of_nat 2))).
Proof.
  split; [done|].
  apply (hedging_rate_counts_terms_present (λ s, s)
           ["Maybe the answer is 42."; "Perhaps Paris could be the capital."]).
  done.
Defined.

(** C5.  For every non-empty list of responses and every permutation of
    it, [extract_metrics] stores the same [response_hash] for both. *)
Theorem response_hash_permutation_invariant (md5_hexdigest : string → string)
    (responses permuted : list string) :
  responses ≠ [] →
  responses ≡ₚ permuted →
  ∃ h, get_metric md5_hexdigest "response_hash" responses = Ok (Some (VStr h))
       ∧ get_metric md5_hexdigest "response_hash" permuted = Ok (Some (VStr h)).
Proof.
  intros Hne Hperm.
  assert (permuted ≠ []) as Hne'.
  { intros ->. by apply Permutation_nil_r in Hperm. }
  rewrite !get_metric_response_hash by done.
  rewrite (sorted_Permutation _ _ Hperm). eauto.
Qed.

Lemma response_hash_permutation_invariant_witness :
  ∃ h, get_metric (λ s, s) "response_hash" ["b"; "c"; "a"] = Ok (Some (VStr h))
       ∧ get_metric (λ s, s) "response_hash" ["a"; "b"; "c"] = Ok (Some (VStr h)).
Proof.
  apply (response_hash_permutation_invariant (λ s, s) ["b"; "c"; "a"] ["a"; "b"; "c"]).
  - done.
  - symmetry. apply (Permutation_cons_append ["b"; "c"] "a").
Defined.

(** C9.  Two response lists that are different multisets, ["ab"; "c"]
    and ["a"; "bc"], get the same [response_hash] under every digest
    function: both sort and concatenate to "abc". *)
Theorem response_hash_ignores_boundaries :
  ∃ l1 l2 : list string,
    l1 = ["ab"; "c"] ∧ l2 = ["a"; "bc"]
    ∧ ¬ l1 ≡ₚ l2
    ∧ str_join (sorted l1) = str_join (sorted l2)
    ∧ ∀ md5_hexdigest, ∃ h,
        get_metric md5_hexdigest "response_hash" l1 = Ok (Some (VStr h))
        ∧ get_metric md5_hexdigest "response_hash" l2 = Ok (Some (VStr h)).
Proof.
  exists ["ab"; "c"], ["a"; "bc"]. split; [done|]. split; [done|].
  split.
  { intros Hperm.
    assert ("ab" ∈ ["a"; "bc"]) as Hin by (rewrite <-Hperm; constructor).
    rewrite !elem_of_cons, elem_of_nil in Hin.
    by destruct Hin as [?|[?|?]]. }
  split; [done|].
  intros md5_hexdigest. rewrite !get_metric_response_hash by done.
  eauto.
Qed.

(** ** Loops *)

Section ForEach.

Context {S A : Type} (body : S → A → result S).

Lemma for_each_ext (body' : S → A → result S) (xs : list A) (st : S) :
  (∀ st x, x ∈ xs → body st x = body' st x) →
  for_each body st xs = for_each body' st xs.
Proof.
  revert st. induction xs as [|x xs IH]; intros st Hext; simpl; [done|].
  rewrite <-(Hext st x) by constructor.
  destruct (body st x) as [st'|e]; simpl; [|done].
  apply IH. intros st1 y Hy. apply Hext. by constructor.
Qed.

Lemma for_each_invariant (I : S → Prop) (xs : list A) :
  (∀ st x st', x ∈ xs → I st → body st x = Ok st' → I st') →
  ∀ st st', I st → for_each body st xs = Ok st' → I st'.
Proof.
  induction xs as [|x xs IH]; intros Hstep st st' Hst Hrun; simpl in Hrun.
  - by injection Hrun as <-.
  - destruct (body st x) as [st1|e] eqn:Hx; simpl in Hrun; [|done].
    apply (IH (λ st0 y st0' Hy, Hstep st0 y st0' (list_elem_of_further _ _ _ Hy))
             st1 st'); [|done].
    apply (Hstep st x st1); [constructor|done..].
Qed.


End ForEach.

(** ** Relative differences *)

Lemma Qcinv_0 : / 0 = 0.
Proof. by apply Qc_is_canon. Qed.

Lemma Qcdiv_nonneg (x y : Qc) : 0 ≤ x → 0 ≤ y → 0 ≤ x / y.
Proof.
  intros Hx Hy. unfold Qcdiv.
  apply Qcmult_nonneg_nonneg; [done|].
  destruct (Qcle_lt_or_eq _ _ Hy) as [Hpos| <-].
  - by apply Qclt_le_weak, Qcinv_pos.
  - by rewrite Qcinv_0.
Qed.

Lemma Qcminus_diag (x : Qc) : x - x = 0.
Proof. unfold Qcminus. apply Qcplus_opp_r. Qed.

Lemma Qcabs_0 : Qcabs 0 = 0.
Proof. by apply Qc_is_canon. Qed.


(** An unchanged value has relative difference zero. *)
Lemma relative_difference_same (old_val : Qc) :
  relative_difference old_val old_val = 0.
Proof.
  unfold relative_difference. case_decide as Hz.
  - rewrite Hz. apply Qcabs_0.
  - rewrite Qcminus_diag, Qcabs_0. unfold Qcdiv. apply Qcmult_0_l.
Qed.

Lemma tenth_not_lt_0 : ¬ tenth < 0.
Proof. by apply Qcle_not_lt. Qed.

Lemma sum_Qc_nonneg (xs : list Qc) : Forall (Qcle 0) xs → 0 ≤ sum_Qc xs.
Proof.
  induction 1 as [|x xs Hx _ IH]; simpl; [done|].
  by apply Qcplus_nonneg_nonneg.
Qed.

Lemma Qc_of_nat_nonneg (n : nat) : 0 ≤ Qc_of_nat n.
Proof.
  unfold Qc_of_nat, Qc_of_Z, Qcle, Qle; simpl. lia.
Qed.

Lemma np_mean_nonneg (xs : list Qc) : Forall (Qcle 0) xs → 0 ≤ np_mean xs.
Proof.
  intros Hxs. unfold np_mean.
  apply Qcdiv_nonneg; [by apply sum_Qc_nonneg|apply Qc_of_nat_nonneg].
Qed.



(** ** The comparison loop *)

Lemma compare_step_changed_other (current : gmap string value)
    (st st' : compare_state) (key k : string) (old_val : value) :
  compare_step current st (key, old_val) = Ok st' →
  key ≠ k →
  st'.1 !! k = st.1 !! k.
Proof.
  intros Hstep Hne. destruct st as [changed diffs].
  unfold compare_step in Hstep. case_decide; [by injection Hstep as <-|].
  destruct old_val as [o|]; [|done].
  destruct (default (VNum o) (current !! key)) as [n|]; [|done].
  injection Hstep as <-. simpl.
  case_decide; [|done]. by apply lookup_insert_ne.
Qed.

(** The iteration for a key the current fingerprint lacks: no
    exception, a difference of zero, and no entry in [changed]. *)
Lemma compare_step_missing (current : gmap string value) (st : compare_state)
    (k : string) (old_val : Qc) :
  k ≠ "response_hash" →
  current !! k = None →
  compare_step current st (k, VNum old_val) = Ok (st.1, st.2 ++ [0]).
Proof.
  intros Hk Hnone. destruct st as [changed diffs].
  unfold compare_step. case_decide; [done|].
  rewrite Hnone. simpl. rewrite relative_difference_same.
  case_decide as Hlt; [|done]. by apply tenth_not_lt_0 in Hlt.
Qed.


(** The loop depends on the current metrics only through the value
    [current.metrics.get(key, old_val)] at the baseline's items. *)
Lemma compare_loop_ext (baseline current current' : gmap string value) :
  (∀ key old_val, baseline !! key = Some old_val →
     default old_val (current !! key) = default old_val (current' !! key)) →
  compare_loop baseline current = compare_loop baseline current'.
Proof.
  intros Hsame. unfold compare_loop. apply for_each_ext.
  intros [changed diffs] [key old_val] Hin.
  apply elem_of_map_to_list in Hin.
  unfold compare_step. by rewrite (Hsame key old_val).
Qed.

Lemma compare_loop_changed_None (baseline current : gmap string value)
    (k : string) (st : compare_state) :
  (∀ v, baseline !! k = Some v →
        k ≠ "response_hash" ∧ current !! k = None ∧ ∃ q, v = VNum q) →
  compare_loop baseline current = Ok st →
  st.1 !! k = None.
Proof.
  intros Hk Hrun. unfold compare_loop in Hrun.
  eapply (for_each_invariant _ (λ st, st.1 !! k = None)); [|..|exact Hrun]; [|done].
  intros st0 [key old_val] st1 Hin Hst0 Hstep.
  apply elem_of_map_to_list in Hin.
  destruct (decide (key = k)) as [->|Hne].
  - destruct (Hk _ Hin) as (Hhash & Hnone & q & ->).
    rewrite compare_step_missing in Hstep by done.
    by injection Hstep as <-.
  - by rewrite (compare_step_changed_other _ _ _ _ _ _ Hstep Hne).
Qed.




Lemma compare_fingerprints_Ok_inv (baseline current : Fingerprint)
    (r : DriftReport) :
  compare_fingerprints baseline current = Ok r →
  ∃ changed diffs,
    compare_loop (metrics baseline) (metrics current) = Ok (changed, diffs)
    ∧ drift_score r = score_of (metrics baseline) (metrics current) diffs
    ∧ changed_metrics r = changed.
Proof.
  unfold compare_fingerprints.
  destruct (compare_loop _ _) as [[changed diffs]|e]; simpl; [|done].
  intros [= <-]. by exists changed, diffs.
Qed.


(** ** Comparison *)

Ltac Qc_compute := apply Qc_is_canon; vm_compute; reflexivity.

(** C1.  On the two fingerprints of
    [test_compare_fingerprints_detects_drift] the returned [drift_score]
    is 2.5, outside [0,1]: the cap [min(_, 1.0)] is applied only where
    the [response_hash] values differ. *)
Theorem drift_score_above_one :
  ∃ r, compare_fingerprints detects_drift_fp1 detects_drift_fp2 = Ok r
       ∧ drift_score r = Q2Qc (5 # 2)
       ∧ 1 < drift_score r
       ∧ ¬ (0 ≤ drift_score r ≤ 1).
Proof.
  destruct (compare_fingerprints detects_drift_fp1 detects_drift_fp2)
    as [r|e] eqn:Hr; vm_compute in Hr; [|done].
  injection Hr as <-. eexists. split; [done|]. simpl.
  assert (Hscore : ∀ q, q = Q2Qc (5 # 2) → 1 < q ∧ ¬ (0 ≤ q ≤ 1)).
  { intros q ->. split; [done|]. intros [_ Hle]. by apply Hle. }
  split; [Qc_compute|]. apply Hscore. Qc_compute.
Qed.

(** C2.  With baseline metrics {avg_length: 100, hedging_rate: 0.1} and
    current metrics {avg_length: 200, hedging_rate: 0.5}, whatever the
    other fields, the accumulated relative differences are 1 and 4, the
    returned [drift_score] is 2.5, which exceeds 0.15, and
    [changed_metrics] holds both keys. *)
Theorem compare_fingerprints_spec_example
    (model_b timestamp_b model_c timestamp_c : string)
    (raw_b raw_c : list string) :
  (∃ changed,
     compare_loop (metrics (example_baseline model_b timestamp_b raw_b))
                  (metrics (example_current model_c timestamp_c raw_c))
     = Ok (changed, [Q2Qc 1; Q2Qc 4]))
  ∧ ∃ r, compare_fingerprints (example_baseline model_b timestamp_b raw_b)
                              (example_current model_c timestamp_c raw_c) = Ok r
         ∧ drift_score r = Q2Qc (5 # 2)
         ∧ Q2Qc (15 # 100) < drift_score r
         ∧ drift_detected r = true
         ∧ changed_metrics r !! "avg_length" = Some (Q2Qc 100, Q2Qc 200)
         ∧ changed_metrics r !! "hedging_rate"
           = Some (Q2Qc (1 # 10), Q2Qc (5 # 10))
         ∧ dom (changed_metrics r) = {["avg_length"; "hedging_rate"]}.
Proof.
  split.
  - destruct (compare_loop _ _) as [[changed diffs]|e] eqn:Hl;
      vm_compute in Hl; [|done].
    injection Hl as <- <-. eexists. do 2 f_equal.
    repeat (f_equal; try Qc_compute).
  - destruct (compare_fingerprints _ _) as [r|e] eqn:Hr;
      vm_compute in Hr; [|done].
    injection Hr as <-. eexists. split; [done|]. simpl.
    split; [Qc_compute|]. split; [done|]. split; [done|].
    split; [by vm_compute|]. split; [by vm_compute|].
    by vm_compute.
Qed.



(** ** The comparison on doubles: what the score depends on *)





(** C10, as stated, fails for the key [response_hash]: the baseline
    {avg_length: 100} compared with the current
    {avg_length: 100, response_hash: "098f6bcd"} scores 0.1, and scores
    0 once the key is removed from the current fingerprint. *)
Lemma extra_response_hash_raises_score :
  metrics unhashed_baseline !! "response_hash" = None
  ∧ metrics hashed_current !! "response_hash" = Some (VStr "098f6bcd")
  ∧ drift_score <$> compare_fingerprints unhashed_baseline hashed_current
    = Ok (Q2Qc (1 # 10))
  ∧ drift_score <$> compare_fingerprints unhashed_baseline
        (with_metrics hashed_current
           (delete "response_hash" (metrics hashed_current)))
    = Ok (Q2Qc 0)
  ∧ compare_fingerprints unhashed_baseline hashed_current
    ≠ compare_fingerprints unhashed_baseline
        (with_metrics hashed_current
           (delete "response_hash" (metrics hashed_current))).
Proof.
  assert (H1 : drift_score <$> compare_fingerprints unhashed_baseline hashed_current
               = Ok (Q2Qc (1 # 10))).
  { destruct (compare_fingerprints _ _) as [r|e] eqn:Hr; vm_compute in Hr; [|done].
    injection Hr as <-. simpl. f_equal; Qc_compute. }
  assert (H0 : drift_score <$> compare_fingerprints unhashed_baseline
                 (with_metrics hashed_current
                    (delete "response_hash" (metrics hashed_current)))
               = Ok (Q2Qc 0)).
  { destruct (compare_fingerprints _ _) as [r|e] eqn:Hr; vm_compute in Hr; [|done].
    injection Hr as <-. simpl. f_equal; Qc_compute. }
  split; [reflexivity|]. split; [reflexivity|].
  split; [done|]. split; [done|].
  intros Heq. rewrite Heq, H0 in H1. by injection H1.
Qed.

(** C10 (amended).  A key the baseline lacks never appears in
    [changed_metrics]; and when that key is not [response_hash], the
    comparison returns the same result with the key in the current
    fingerprint and without it. *)
Theorem extra_current_key_no_effect (baseline current : Fingerprint)
    (k : string) :
  metrics baseline !! k = None →
  (∀ r, compare_fingerprints baseline current = Ok r →
        changed_metrics r !! k = None)
  ∧ (k ≠ "response_hash" →
     compare_fingerprints baseline current
     = compare_fingerprints baseline
         (with_metrics current (delete k (metrics current)))).
Proof.
  intros Hnone. split.
  - intros r (changed & diffs & Hrun & _ & ->)%compare_fingerprints_Ok_inv.
    apply (compare_loop_changed_None _ _ k) in Hrun; [done|].
    intros v Hv. by rewrite Hnone in Hv.
  - intros Hk.
    unfold compare_fingerprints, with_metrics, score_of; simpl.
    rewrite (lookup_delete_ne (metrics current) k "response_hash") by done.
    rewrite (compare_loop_ext (metrics baseline) (metrics current)
               (delete k (metrics current))); [done|].
    intros key v Hv.
    destruct (decide (k = key)) as [<-|Hne]; [|by rewrite lookup_delete_ne].
    by rewrite Hnone in Hv.
Qed.

Lemma extra_current_key_no_effect_witness :
  (∀ r, compare_fingerprints detects_drift_fp1 extended_current = Ok r →
        changed_metrics r !! "refusal_rate" = None)
  ∧ ("refusal_rate" ≠ "response_hash" →
     compare_fingerprints detects_drift_fp1 extended_current
     = compare_fingerprints detects_drift_fp1
         (with_metrics extended_current
            (delete "refusal_rate" (metrics extended_current)))).
Proof.
  apply (extra_current_key_no_effect detects_drift_fp1 extended_current
           "refusal_rate").
  reflexivity.
Defined.

(** ** Persistence *)

Lemma dict_of_members_foldr {A} (members : list (string * A)) :
  dict_of_members members = list_to_map (reverse members).
Proof.
  unfold dict_of_members.
  rewrite <-(reverse_involutive members) at 1.
  induction (reverse members) as [|[k v] l IH]; [done|].
  by rewrite reverse_cons, foldl_app, IH.
Qed.

(** Decoding the members of a dict gives the dict back. *)
Lemma dict_of_members_of_dict {A} (d : gmap string A) :
  dict_of_members (members_of_dict d) = d.
Proof.
  rewrite dict_of_members_foldr. unfold members_of_dict.
  rewrite <-(list_to_map_to_list d) at 2.
  apply list_to_map_proper.
  - rewrite fmap_reverse, reverse_Permutation. apply NoDup_fst_map_to_list.
  - apply reverse_Permutation.
Qed.

Lemma traverse_values (items : list (string * value)) :
  traverse (λ kv : string * json, v ← json_to_value kv.2; Ok (kv.1, v))
    ((λ kv : string * value, (kv.1, value_to_json kv.2)) <$> items)
  = Ok items.
Proof.
  induction items as [|[k v] items IH]; [done|].
  rewrite fmap_cons. simpl. rewrite IH. by destruct v.
Qed.

Lemma traverse_strings (l : list string) :
  traverse json_to_str (JStr <$> l) = Ok l.
Proof.
  induction l as [|s l IH]; [done|].
  rewrite fmap_cons. simpl. by rewrite IH.
Qed.

(** The constructor call inverts the dict built by [save]. *)
Lemma fingerprint_of_data_of_fingerprint (fp : Fingerprint) :
  fingerprint_of_data (fingerprint_data fp) = Ok fp.
Proof.
  destruct fp as [m t ms rs].
  unfold fingerprint_of_data, fingerprint_data, dict_of_members at 1; simpl.
  case_decide as Hdom.
  - simplify_map_eq.
    rewrite traverse_values, traverse_strings. simpl.
    by rewrite dict_of_members_of_dict.
  - exfalso. apply Hdom. unfold fingerprint_fields.
    rewrite !dom_insert_L, dom_empty_L. set_solver.
Qed.

Section PersistenceProperties.

Context {text : Type}.
Variable json_dumps : json → text.
Variable json_loads : text → result json.

(** Loading a path that holds no file raises. *)
Lemma load_missing (path : string) (fs : file_store text) :
  fs !! path = None → load text json_loads path fs = Raise FileNotFoundError.
Proof. intros Hnone. unfold load, file_store in *. by rewrite Hnone. Qed.

(** Saving leaves every other path as it was. *)
Lemma save_other_path (fp : Fingerprint) (path path' : string)
    (fs : file_store text) :
  path ≠ path' → save text json_dumps fp path fs !! path' = fs !! path'.
Proof. intros Hne. unfold save, file_store in *. by apply lookup_insert_ne. Qed.

End PersistenceProperties.

(** C6.  A fingerprint whose document the JSON codec represents
    without loss, saved to a path and loaded from it, comes back with
    the same model, timestamp, metrics and raw responses, whatever the
    path held before. *)
Theorem save_load_roundtrip {text : Type} (json_dumps : json → text)
    (json_loads : text → result json) (fp : Fingerprint) (path : string)
    (fs : file_store text) :
  json_representable text json_dumps json_loads fp →
  ∃ loaded,
    load text json_loads path (save text json_dumps fp path fs) = Ok loaded
    ∧ model loaded = model fp
    ∧ timestamp loaded = timestamp fp
    ∧ metrics loaded = metrics fp
    ∧ raw_responses loaded = raw_responses fp.
Proof.
  intros Hcodec. exists fp. split; [|done].
  unfold load, save, file_store in *. rewrite lookup_insert_eq.
  rewrite Hcodec. simpl. apply fingerprint_of_data_of_fingerprint.
Qed.

Lemma save_load_roundtrip_witness :
  ∃ loaded,
    load json Ok "baseline.json"
      (save json (λ data, data) detects_drift_fp1 "baseline.json" ∅) = Ok loaded
    ∧ model loaded = model detects_drift_fp1
    ∧ timestamp loaded = timestamp detects_drift_fp1
    ∧ metrics loaded = metrics detects_drift_fp1
    ∧ raw_responses loaded = raw_responses detects_drift_fp1.
Proof.
  apply (save_load_roundtrip (λ data, data) Ok detects_drift_fp1 "baseline.json" ∅).
  reflexivity.
Defined.

(** ** The order in which the baseline's keys are visited

    Python visits a dict in insertion order, [compare_loop] in the
    order of [map_to_list].  In exact arithmetic the report is the same
    for every order. *)

Lemma compare_step_effect (current : gmap string value) (st : compare_state)
    (item : string * value) :
  compare_step current st item = apply_effect st <$> item_effect current item.
Proof.
  destruct st as [changed diffs], item as [key old_val].
  unfold compare_step, item_effect. case_decide; [done|].
  destruct old_val as [o|]; [|done].
  by destruct (default (VNum o) (current !! key)) as [n|].
Qed.

Lemma state_equiv_refl (st : compare_state) : state_equiv st st.
Proof. by split. Qed.

Lemma outcome_equiv_refl (r : result compare_state) : outcome_equiv r r.
Proof. destruct r; simpl; [apply state_equiv_refl|done]. Qed.

Lemma outcome_equiv_trans (r1 r2 r3 : result compare_state) :
  outcome_equiv r1 r2 → outcome_equiv r2 r3 → outcome_equiv r1 r3.
Proof.
  destruct r1 as [[c1 d1]|e1], r2 as [[c2 d2]|e2], r3 as [[c3 d3]|e3];
    simpl; try done.
  - intros [? ?] [? ?]. split; simpl in *; [congruence|by etrans].
  - congruence.
Qed.

Lemma apply_effect_equiv (st st' : compare_state)
    (eff : option (string * Qc * Qc)) :
  state_equiv st st' → state_equiv (apply_effect st eff) (apply_effect st' eff).
Proof.
  intros [Hc Hd]. destruct eff as [[[key o] n]|]; simpl; [|by split].
  split; simpl; [by rewrite Hc|by rewrite Hd].
Qed.

Lemma apply_effect_swap (st : compare_state)
    (eff1 eff2 : option (string * Qc * Qc)) :
  (∀ k1 o1 n1 k2 o2 n2,
     eff1 = Some (k1, o1, n1) → eff2 = Some (k2, o2, n2) → k1 ≠ k2) →
  state_equiv (apply_effect (apply_effect st eff1) eff2)
              (apply_effect (apply_effect st eff2) eff1).
Proof.
  intros Hne. destruct st as [changed diffs].
  destruct eff1 as [[[k1 o1] n1]|], eff2 as [[[k2 o2] n2]|];
    simpl; try apply state_equiv_refl.
  specialize (Hne k1 o1 n1 k2 o2 n2 eq_refl eq_refl).
  split; simpl.
  - repeat case_decide; try done. by apply insert_insert_ne.
  - rewrite <-!(assoc_L (++)). apply Permutation_app_head, perm_swap.
Qed.

Lemma item_effect_key (current : gmap string value) (item : string * value)
    (k : string) (o n : Qc) :
  item_effect current item = Ok (Some (k, o, n)) → k = item.1.
Proof.
  destruct item as [key old_val]. unfold item_effect.
  case_decide; [done|].
  destruct old_val as [o'|]; [|done].
  destruct (default (VNum o') (current !! key)) as [n'|]; [|done].
  by intros [= -> _ _].
Qed.

Lemma compare_step_equiv (current : gmap string value)
    (st st' : compare_state) (item : string * value) :
  state_equiv st st' →
  outcome_equiv (compare_step current st item) (compare_step current st' item).
Proof.
  intros Hst. rewrite !compare_step_effect.
  destruct (item_effect current item) as [eff|e]; simpl; [|done].
  by apply apply_effect_equiv.
Qed.

Lemma for_each_equiv (current : gmap string value)
    (items : list (string * value)) (st st' : compare_state) :
  state_equiv st st' →
  outcome_equiv (for_each (compare_step current) st items)
                (for_each (compare_step current) st' items).
Proof.
  revert st st'. induction items as [|item items IH]; intros st st' Hst; [done|].
  simpl. pose proof (compare_step_equiv current st st' item Hst) as Hstep.
  destruct (compare_step current st item) as [s|e],
           (compare_step current st' item) as [s'|e']; simpl in *; try done.
  by apply IH.
Qed.

Lemma for_each_swap (current : gmap string value) (x y : string * value)
    (items : list (string * value)) (st : compare_state) :
  x.1 ≠ y.1 →
  outcome_equiv (for_each (compare_step current) st (y :: x :: items))
                (for_each (compare_step current) st (x :: y :: items)).
Proof.
  intros Hne. simpl. rewrite !compare_step_effect.
  destruct (item_effect current x) as [ex|e1] eqn:Hx,
           (item_effect current y) as [ey|e2] eqn:Hy; simpl;
    rewrite ?compare_step_effect, ?Hx, ?Hy; simpl; try done.
  - apply for_each_equiv, apply_effect_swap.
    intros k1 o1 n1 k2 o2 n2 -> ->.
    apply item_effect_key in Hx, Hy. simpl in *. congruence.
  - destruct y as [ky vy], x as [kx vx]. unfold item_effect in Hx, Hy.
    repeat case_decide; repeat case_match; congruence.
Qed.

Lemma for_each_Permutation (current : gmap string value)
    (items items' : list (string * value)) :
  items ≡ₚ items' →
  NoDup items.*1 →
  ∀ st st', state_equiv st st' →
    outcome_equiv (for_each (compare_step current) st items)
                  (for_each (compare_step current) st' items').
Proof.
  induction 1 as [|x l l' Hperm IH|x y l|l1 l2 l3 H12 IH12 H23 IH23];
    intros Hnodup st st' Hst.
  - done.
  - simpl. pose proof (compare_step_equiv current st st' x Hst) as Hstep.
    destruct (compare_step current st x) as [s|e],
             (compare_step current st' x) as [s'|e']; simpl in *; try done.
    apply IH; [|done]. by apply NoDup_cons in Hnodup as [_ ?].
  - eapply outcome_equiv_trans; [apply for_each_swap|by apply for_each_equiv].
    rewrite !fmap_cons in Hnodup.
    apply NoDup_cons in Hnodup as [Hy _]. intros Heq. apply Hy.
    rewrite Heq. constructor.
  - eapply outcome_equiv_trans.
    + apply IH12; [done|apply state_equiv_refl].
    + apply IH23; [|done]. by rewrite <-H12.
Qed.

Lemma sum_Qc_Permutation (xs ys : list Qc) : xs ≡ₚ ys → sum_Qc xs = sum_Qc ys.
Proof.
  induction 1 as [|x l l' _ IH|x y l|l1 l2 l3 _ IH12 _ IH23]; simpl.
  - done.
  - by rewrite IH.
  - rewrite !Qcplus_assoc. f_equal. apply Qcplus_comm.
  - by rewrite IH12.
Qed.

Lemma score_of_Permutation (baseline current : gmap string value)
    (diffs diffs' : list Qc) :
  diffs ≡ₚ diffs' → score_of baseline current diffs = score_of baseline current diffs'.
Proof.
  intros Hperm. unfold score_of.
  assert (match diffs with [] => 0 | _ :: _ => np_mean diffs end
          = match diffs' with [] => 0 | _ :: _ => np_mean diffs' end) as ->; [|done].
  destruct diffs as [|d diffs], diffs' as [|d' diffs']; try done.
  - by apply Permutation_nil_cons in Hperm.
  - symmetry in Hperm. by apply Permutation_nil_cons in Hperm.
  - unfold np_mean.
    by rewrite (sum_Qc_Permutation _ _ Hperm), (Permutation_length Hperm).
Qed.

(** In exact arithmetic, whatever the order [items] in which the
    baseline's dict is visited, the loop followed by the scoring returns
    the report of [compare_fingerprints]. *)
Lemma compare_fingerprints_any_order (baseline current : Fingerprint)
    (items : list (string * value)) :
  items ≡ₚ map_to_list (metrics baseline) →
  ('(changed, diffs) ← for_each (compare_step (metrics current)) (∅, []) items;
   Ok {| baseline_timestamp := timestamp baseline;
         current_timestamp := timestamp current;
         drift_score := score_of (metrics baseline) (metrics current) diffs;
         changed_metrics := changed |})
  = compare_fingerprints baseline current.
Proof.
  intros Hperm. unfold compare_fingerprints, compare_loop.
  pose proof (for_each_Permutation (metrics current) _ _ Hperm) as Hequiv.
  specialize (Hequiv ltac:(rewrite Hperm; apply NoDup_fst_map_to_list)
                (∅, []) (∅, []) (state_equiv_refl _)).
  destruct (for_each _ _ items) as [[c1 d1]|e1],
           (for_each _ _ (map_to_list _)) as [[c2 d2]|e2]; simpl in *; try done.
  - destruct Hequiv as [Hc Hd]; simpl in *. subst c2.
    by rewrite (score_of_Permutation _ _ _ _ Hd).
  - by rewrite Hequiv.
Qed.

(** ** The repository's tests, on the embedding *)

(** [test_extract_metrics_detects_hedging]: rates 0 and 3/2. *)
Example test_extract_metrics_detects_hedging (md5_hexdigest : string → string) :
  get_metric md5_hexdigest "hedging_rate"
    ["The answer is 42."; "Paris is the capital."]
  = Ok (Some (VNum (Q2Qc 0)))
  ∧ get_metric md5_hexdigest "hedging_rate"
      ["Maybe the answer is 42."; "Perhaps Paris could be the capital."]
    = Ok (Some (VNum (Q2Qc (3 # 2)))).
Proof.
  rewrite !get_metric_hedging_rate by done.
  split; do 3 f_equal; Qc_compute.
Qed.

(** [test_compare_fingerprints_no_drift]: equal metrics score 0. *)
Example test_compare_fingerprints_no_drift :
  ∃ r, compare_fingerprints detects_drift_fp1
         (example_baseline "test" "2024-01-02" ["test"]) = Ok r
       ∧ drift_score r = Q2Qc 0
       ∧ drift_detected r = false
       ∧ changed_metrics r = ∅.
Proof.
  destruct (compare_fingerprints _ _) as [r|e] eqn:Hr; vm_compute in Hr; [|done].
  injection Hr as <-. eexists. split; [done|]. simpl.
  split; [Qc_compute|done].
Qed.

(** * Further properties of the code *)

(** ** Numbers *)

Lemma Qc_of_nat_le (a b : nat) : (a ≤ b)%nat → Qc_of_nat a ≤ Qc_of_nat b.
Proof. intros Hab. unfold Qc_of_nat, Qc_of_Z, Qcle, Qle; simpl. lia. Qed.

Lemma Qc_of_nat_pos (n : nat) : (0 < n)%nat → 0 < Qc_of_nat n.
Proof. intros Hn. unfold Qc_of_nat, Qc_of_Z, Qclt, Qlt; simpl. lia. Qed.

Lemma Qc_of_nat_pos_inv (n : nat) : 0 < Qc_of_nat n → (0 < n)%nat.
Proof. unfold Qc_of_nat, Qc_of_Z, Qclt, Qlt; simpl. lia. Qed.

Lemma Qc_of_nat_mul (a b : nat) :
  Qc_of_nat (a * b) = Qc_of_nat a * Qc_of_nat b.
Proof.
  apply Qc_is_canon. unfold Qc_of_nat, Qc_of_Z; simpl.
  rewrite Qred_correct, Nat2Z.inj_mul. by rewrite inject_Z_mult.
Qed.

Lemma Qcdiv_mul_cancel (x y : Qc) : y ≠ 0 → x / y * y = x.
Proof. intros Hy. rewrite Qcmult_comm. by apply Qcmult_div_r. Qed.

Lemma Qcdiv_le_upper (x y c : Qc) : 0 < y → x ≤ c * y → x / y ≤ c.
Proof.
  intros Hy Hx. apply (Qcmult_le_mono_pos_r _ _ y Hy).
  rewrite Qcdiv_mul_cancel; [done|]. intros ->. by apply Qclt_not_eq in Hy.
Qed.

Lemma Qcdiv_pos_iff (x y : Qc) : 0 < y → 0 < x / y ↔ 0 < x.
Proof.
  intros Hy.
  assert (y ≠ 0) as Hy0 by (intros ->; by apply Qclt_not_eq in Hy).
  rewrite (Qcmult_lt_mono_pos_r 0 (x / y) y Hy).
  by rewrite Qcmult_0_l, Qcdiv_mul_cancel.
Qed.

(** A count divided by the number of responses. *)
Lemma rate_nonneg (a n : nat) : 0 ≤ Qc_of_nat a / Qc_of_nat n.
Proof. apply Qcdiv_nonneg; apply Qc_of_nat_nonneg. Qed.

Lemma rate_le (a n c : nat) :
  (0 < n)%nat → (a ≤ c * n)%nat → Qc_of_nat a / Qc_of_nat n ≤ Qc_of_nat c.
Proof.
  intros Hn Ha. apply Qcdiv_le_upper; [by apply Qc_of_nat_pos|].
  rewrite <-Qc_of_nat_mul. by apply Qc_of_nat_le.
Qed.

Lemma rate_pos_iff (a n : nat) :
  (0 < n)%nat → 0 < Qc_of_nat a / Qc_of_nat n ↔ (0 < a)%nat.
Proof.
  intros Hn. rewrite Qcdiv_pos_iff by by apply Qc_of_nat_pos.
  split; [apply Qc_of_nat_pos_inv|apply Qc_of_nat_pos].
Qed.

Lemma sum_list_fmap_le {A} (f : A → nat) (c : nat) (l : list A) :
  (∀ x, f x ≤ c)%nat → (sum_list (f <$> l) ≤ c * length l)%nat.
Proof.
  intros Hf. induction l as [|x l IH]; cbn in *; [lia|].
  specialize (Hf x). lia.
Qed.

Lemma sum_list_fmap_pos {A} (f : A → nat) (l : list A) :
  (0 < sum_list (f <$> l))%nat ↔ ∃ x, x ∈ l ∧ (0 < f x)%nat.
Proof.
  induction l as [|x l IH]; cbn in *.
  - split; [lia|]. intros (y & Hy & _). by apply elem_of_nil in Hy.
  - split.
    + intros Hpos. destruct (decide (0 < f x)%nat) as [Hx|Hx].
      * exists x. split; [constructor|done].
      * destruct IH as [IH _]. destruct IH as (y & Hy & Hfy); [lia|].
        exists y. split; [by constructor|done].
    + intros (y & Hy & Hfy). apply elem_of_cons in Hy as [->|Hy]; [lia|].
      destruct IH as [_ IH]. specialize (IH (ex_intro _ y (conj Hy Hfy))). lia.
Qed.

Lemma sum_ones_le {A} (p : A → bool) (xs : list A) :
  (sum_ones p xs ≤ length xs)%nat.
Proof.
  rewrite sum_ones_length. induction xs as [|x xs IH]; simpl; [done|].
  destruct (p x); simpl; lia.
Qed.

Lemma sum_ones_pos {A} (p : A → bool) (xs : list A) :
  (0 < sum_ones p xs)%nat ↔ ∃ x, x ∈ xs ∧ p x = true.
Proof.
  rewrite sum_ones_length. induction xs as [|x xs IH]; simpl.
  - split; [lia|]. intros (y & Hy & _). by apply elem_of_nil in Hy.
  - destruct (p x) eqn:Hx; simpl.
    + split; [|lia]. intros _. exists x. split; [constructor|done].
    + rewrite IH. split.
      * intros (y & Hy & Hpy). exists y. split; [by constructor|done].
      * intros (y & Hy & Hpy). apply elem_of_cons in Hy as [->|Hy]; [congruence|].
        by exists y.
Qed.

Lemma any_as_int_le {A} (p : A → bool) (xs : list A) :
  (any_as_int p xs ≤ 1)%nat.
Proof. unfold any_as_int. destruct (existsb p xs); simpl; lia. Qed.

Lemma any_as_int_pos {A} (p : A → bool) (xs : list A) :
  (0 < any_as_int p xs)%nat ↔ ∃ x, x ∈ xs ∧ p x = true.
Proof.
  unfold any_as_int. destruct (existsb p xs) eqn:Hex; simpl.
  - split; [|lia]. intros _. apply existsb_exists in Hex as (x & Hx & Hpx).
    exists x. by rewrite list_elem_of_In.
  - split; [lia|]. intros (x & Hx & Hpx).
    assert (existsb p xs = true) as Htrue; [|congruence].
    apply existsb_exists. exists x. by rewrite <-list_elem_of_In.
Qed.

(** ** Strings *)

Lemma prefix_app (sub post : string) : String.prefix sub (sub +:+ post) = true.
Proof.
  induction sub as [|c sub IH]; simpl; [by destruct post|].
  destruct (ascii_dec c c); [done|congruence].
Qed.

Lemma prefix_inv (sub s : string) :
  String.prefix sub s = true → ∃ post, s = sub +:+ post.
Proof.
  revert s. induction sub as [|c sub IH]; intros s Hpre; simpl in *.
  - by exists s.
  - destruct s as [|c' s]; simpl in Hpre; [done|].
    destruct (ascii_dec c c') as [->|]; [|done].
    destruct (IH s Hpre) as [post ->]. by exists post.
Qed.

Lemma str_in_nil (sub : string) :
  str_in sub EmptyString = String.prefix sub EmptyString.
Proof. unfold str_in. apply orb_false_r. Qed.

Lemma str_in_cons (sub : string) (c : ascii) (s : string) :
  str_in sub (String c s) = String.prefix sub (String c s) || str_in sub s.
Proof. done. Qed.

(** [str_in] is the substring test. *)
Lemma str_in_spec (sub s : string) :
  str_in sub s = true ↔ ∃ pre post, s = pre +:+ sub +:+ post.
Proof.
  split.
  - induction s as [|c s IH]; intros Hin.
    + rewrite str_in_nil in Hin. apply prefix_inv in Hin as [post ->].
      by exists EmptyString, post.
    + rewrite str_in_cons in Hin. apply orb_true_iff in Hin as [Hpre|Hin].
      * apply prefix_inv in Hpre as [post ->]. by exists EmptyString, post.
      * destruct (IH Hin) as (pre & post & ->). by exists (String c pre), post.
  - intros (pre & post & ->). induction pre as [|c pre IH].
    + change (EmptyString +:+ sub +:+ post) with (sub +:+ post).
      destruct (sub +:+ post) as [|c s] eqn:Heq.
      * rewrite str_in_nil, <-Heq. apply prefix_app.
      * rewrite str_in_cons, <-Heq. by rewrite prefix_app.
    + change (String c pre +:+ sub +:+ post)
        with (String c (pre +:+ sub +:+ post)).
      by rewrite str_in_cons, IH, orb_true_r.
Qed.

Lemma lower_app (s1 s2 : string) : lower (s1 +:+ s2) = lower s1 +:+ lower s2.
Proof. induction s1 as [|c s1 IH]; simpl; [done|by rewrite IH]. Qed.

Lemma lower_length (s : string) : String.length (lower s) = String.length s.
Proof. induction s as [|c s IH]; simpl; [done|by rewrite IH]. Qed.

Lemma lower_char_idemp (c : ascii) : lower_char (lower_char c) = lower_char c.
Proof. by destruct c as [[] [] [] [] [] [] [] []]. Qed.

Lemma lower_idemp (s : string) : lower (lower s) = lower s.
Proof.
  induction s as [|c s IH]; simpl; [done|].
  by rewrite lower_char_idemp, IH.
Qed.

(** ** Metric extraction: the stored values *)

Ltac get_metric_nonempty :=
  let Hne := fresh "Hne" in
  intros Hne; apply length_nonempty in Hne;
  unfold get_metric, extract_metrics;
  rewrite !py_truediv_nonzero by done; simpl;
  by simplify_map_eq.

Section MetricValues.

Variable md5_hexdigest : string → string.

Lemma get_metric_avg_length (responses : list string) :
  responses ≠ [] →
  get_metric md5_hexdigest "avg_length" responses
  = Ok (Some (VNum (np_mean ((λ r, Qc_of_nat (String.length r)) <$> responses)))).
Proof. get_metric_nonempty. Qed.

Lemma get_metric_length_variance (responses : list string) :
  responses ≠ [] →
  get_metric md5_hexdigest "length_variance" responses
  = Ok (Some (VNum (np_var ((λ r, Qc_of_nat (String.length r)) <$> responses)))).
Proof. get_metric_nonempty. Qed.

Lemma get_metric_refusal_rate (responses : list string) :
  responses ≠ [] →
  get_metric md5_hexdigest "refusal_rate" responses
  = Ok (Some (VNum
      (Qc_of_nat (sum_list ((λ r, any_as_int (λ marker, str_in marker (lower r))
                                             refusal_markers) <$> responses))
       / Qc_of_nat (length responses)))).
Proof. get_metric_nonempty. Qed.

Lemma get_metric_list_usage_rate (responses : list string) :
  responses ≠ [] →
  get_metric md5_hexdigest "list_usage_rate" responses
  = Ok (Some (VNum
      (Qc_of_nat (sum_list ((λ r, any_as_int (λ marker, str_in marker r)
                                             list_markers) <$> responses))
       / Qc_of_nat (length responses)))).
Proof. get_metric_nonempty. Qed.

Lemma get_metric_first_person_rate (responses : list string) :
  responses ≠ [] →
  get_metric md5_hexdigest "first_person_rate" responses
  = Ok (Some (VNum
      (Qc_of_nat (sum_list ((λ r, sum_ones (λ fp, str_in fp (lower r))
                                           first_person) <$> responses))
       / Qc_of_nat (length responses)))).
Proof. get_metric_nonempty. Qed.

End MetricValues.

Lemma Qc_of_nat_1 : Qc_of_nat 1 = 1.
Proof. by apply Qc_is_canon. Qed.

Lemma np_mean_of_nat_nonneg {A} (f : A → nat) (l : list A) :
  0 ≤ np_mean ((λ x, Qc_of_nat (f x)) <$> l).
Proof.
  apply np_mean_nonneg, Forall_fmap, Forall_forall.
  intros x _. apply Qc_of_nat_nonneg.
Qed.

Lemma np_var_nonneg (xs : list Qc) : 0 ≤ np_var xs.
Proof.
  unfold np_var. apply np_mean_nonneg, Forall_fmap, Forall_forall.
  intros x _. apply Qcmult_nonneg_nonneg; apply Qcabs_nonneg.
Qed.

Lemma VNum_inj (a b : Qc) : VNum a = VNum b → a = b.
Proof. by intros [=]. Qed.

Lemma extract_metrics_numeric (md5_hexdigest : string → string)
    (responses : list string) (m : gmap string value) :
  extract_metrics md5_hexdigest responses = Ok m → numeric_metrics m.
Proof.
  destruct (decide (responses = [])) as [->|Hne]; [done|].
  apply length_nonempty in Hne.
  unfold extract_metrics. rewrite !py_truediv_nonzero by done. simpl.
  intros [= <-] k v Hk Hhash.
  rewrite lookup_insert_ne in Hk by done.
  repeat (apply lookup_insert_Some in Hk as [[_ <-]|[_ Hk]]; [by eexists|]).
  by rewrite lookup_empty in Hk.
Qed.

(** X1.  On a non-empty list [extract_metrics] returns a dict with
    exactly the eight documented keys; every value except
    [response_hash] is a number, and [response_hash] is a string. *)
Theorem extract_metrics_shape (md5_hexdigest : string → string)
    (responses : list string) :
  responses ≠ [] →
  ∃ m, extract_metrics md5_hexdigest responses = Ok m
       ∧ dom m = {["avg_length"; "length_variance"; "avg_sentences";
                    "hedging_rate"; "refusal_rate"; "list_usage_rate";
                    "first_person_rate"; "response_hash"]}
       ∧ numeric_metrics m
       ∧ ∃ h, m !! "response_hash" = Some (VStr h).
Proof.
  intros Hne.
  destruct (extract_metrics_nonempty md5_hexdigest responses Hne)
    as (m & Hm & Hdom).
  exists m. split; [done|]. split; [done|].
  split; [by eapply extract_metrics_numeric|].
  pose proof (get_metric_response_hash md5_hexdigest responses Hne) as Hhash.
  unfold get_metric in Hhash. rewrite Hm in Hhash. simpl in Hhash.
  injection Hhash as Hhash. by eexists.
Qed.

(** X2.  Every number [extract_metrics] stores is non-negative. *)
Theorem numeric_metrics_nonneg (md5_hexdigest : string → string)
    (responses : list string) :
  responses ≠ [] →
  ∃ m, extract_metrics md5_hexdigest responses = Ok m
       ∧ ∀ k q, m !! k = Some (VNum q) → 0 ≤ q.
Proof.
  intros Hne. apply length_nonempty in Hne.
  unfold extract_metrics. rewrite !py_truediv_nonzero by done. simpl.
  eexists. split; [done|]. intros k q Hk.
  apply lookup_insert_Some in Hk as [[_ Hk]|[_ Hk]]; [done|].
  do 4 (apply lookup_insert_Some in Hk as [[_ Hk]|[_ Hk]];
        [apply VNum_inj in Hk as <-; apply rate_nonneg|]).
  apply lookup_insert_Some in Hk as [[_ Hk]|[_ Hk]];
    [apply VNum_inj in Hk as <-; apply np_mean_of_nat_nonneg|].
  apply lookup_insert_Some in Hk as [[_ Hk]|[_ Hk]];
    [apply VNum_inj in Hk as <-; apply np_var_nonneg|].
  apply lookup_insert_Some in Hk as [[_ Hk]|[_ Hk]];
    [apply VNum_inj in Hk as <-; apply np_mean_of_nat_nonneg|].
  by rewrite lookup_empty in Hk.
Qed.

(** X3.  [refusal_rate] and [list_usage_rate] lie in [0,1]. *)
Theorem presence_rates_in_unit_interval (md5_hexdigest : string → string)
    (responses : list string) :
  responses ≠ [] →
  ∃ refusal list_usage,
    get_metric md5_hexdigest "refusal_rate" responses = Ok (Some (VNum refusal))
    ∧ get_metric md5_hexdigest "list_usage_rate" responses
      = Ok (Some (VNum list_usage))
    ∧ 0 ≤ refusal ≤ 1
    ∧ 0 ≤ list_usage ≤ 1.
Proof.
  intros Hne.
  rewrite get_metric_refusal_rate, get_metric_list_usage_rate by done.
  apply length_nonempty in Hne.
  do 2 eexists. split; [done|]. split; [done|].
  rewrite <-Qc_of_nat_1.
  split; (split; [apply rate_nonneg|]);
    (apply rate_le; [lia|]); apply sum_list_fmap_le; intros r;
    apply any_as_int_le.
Qed.

(** X4.  [hedging_rate] is at most 7 and [first_person_rate] at most
    5, the sizes of the two vocabularies: a term counts once per
    response. *)
Theorem counting_rates_bounded (md5_hexdigest : string → string)
    (responses : list string) :
  responses ≠ [] →
  ∃ hedging first_person_q,
    get_metric md5_hexdigest "hedging_rate" responses = Ok (Some (VNum hedging))
    ∧ get_metric md5_hexdigest "first_person_rate" responses
      = Ok (Some (VNum first_person_q))
    ∧ 0 ≤ hedging ≤ Qc_of_nat 7
    ∧ 0 ≤ first_person_q ≤ Qc_of_nat 5.
Proof.
  intros Hne.
  rewrite get_metric_hedging_rate, get_metric_first_person_rate by done.
  apply length_nonempty in Hne.
  do 2 eexists. split; [done|]. split; [done|].
  split; (split; [apply rate_nonneg|]);
    (apply rate_le; [lia|]); apply sum_list_fmap_le; intros r;
    (etrans; [apply sum_ones_le|done]).
Qed.

(** ** Metric extraction: the order and the case of the responses *)

Lemma sum_list_fmap_Permutation {A} (f : A → nat) (l l' : list A) :
  l ≡ₚ l' → sum_list (f <$> l) = sum_list (f <$> l').
Proof. intros Hperm. by rewrite Hperm. Qed.

Lemma np_mean_fmap_Permutation {A} (f : A → Qc) (l l' : list A) :
  l ≡ₚ l' → np_mean (f <$> l) = np_mean (f <$> l').
Proof.
  intros Hperm. unfold np_mean.
  rewrite (sum_Qc_Permutation (f <$> l) (f <$> l')) by by rewrite Hperm.
  by rewrite !length_fmap, (Permutation_length Hperm).
Qed.

(** X7.  Apart from [length_variance], [extract_metrics] stores the
    same values (or raises alike) for a list of responses and for every
    permutation of it: the lengths and the counts are integers, whose
    sums do not depend on the order, and the hash is taken of the
    sorted responses. *)
Theorem extract_metrics_Permutation_but_variance
    (md5_hexdigest : string → string) (responses permuted : list string) :
  responses ≡ₚ permuted →
  delete "length_variance" <$> extract_metrics md5_hexdigest responses
  = delete "length_variance" <$> extract_metrics md5_hexdigest permuted.
Proof.
  intros Hperm. unfold extract_metrics.
  rewrite (Permutation_length Hperm), (sorted_Permutation _ _ Hperm).
  rewrite !(sum_list_fmap_Permutation _ _ _ Hperm).
  rewrite !(np_mean_fmap_Permutation _ _ _ Hperm).
  repeat (destruct (py_truediv _ _) as [?|?]; simpl; [|done]).
  (* The two dicts now differ in the deleted key only. *)
  reflexivity.
Qed.

Lemma extract_metrics_Permutation_but_variance_witness :
  delete "length_variance"
    <$> extract_metrics (λ s, s) ["I cannot."; "Maybe."; "Yes!"]
  = delete "length_variance"
      <$> extract_metrics (λ s, s) ["Maybe."; "I cannot."; "Yes!"].
Proof.
  apply (extract_metrics_Permutation_but_variance (λ s, s)
           ["I cannot."; "Maybe."; "Yes!"] ["Maybe."; "I cannot."; "Yes!"]).
  apply perm_swap.
Defined.

Lemma Qc_of_nat_inj (a b : nat) : Qc_of_nat a = Qc_of_nat b → a = b.
Proof.
  unfold Qc_of_nat, Qc_of_Z. intros [= Heq]. by apply Nat2Z.inj.
Qed.

Lemma rate_eq_1_iff (a n : nat) :
  (0 < n)%nat → Qc_of_nat a / Qc_of_nat n = 1 ↔ a = n.
Proof.
  intros Hn.
  assert (Qc_of_nat n ≠ 0) as Hn0.
  { intros Heq. apply Qc_of_nat_pos in Hn. rewrite Heq in Hn.
    by apply Qclt_not_eq in Hn. }
  split.
  - intros Heq. apply Qc_of_nat_inj.
    rewrite <-(Qcdiv_mul_cancel (Qc_of_nat a) (Qc_of_nat n) Hn0), Heq.
    apply Qcmult_1_l.
  - intros ->. unfold Qcdiv. by apply Qcmult_inv_r.
Qed.

Lemma sum_list_fmap_full {A} (f : A → nat) (l : list A) :
  (∀ x, f x ≤ 1)%nat →
  sum_list (f <$> l) = length l ↔ ∀ x, x ∈ l → (0 < f x)%nat.
Proof.
  intros Hf. induction l as [|x l IH]; cbn in *.
  - split; [|done]. intros _ y Hy. by apply elem_of_nil in Hy.
  - pose proof (Hf x) as Hx.
    pose proof (sum_list_fmap_le f 1 l Hf) as Hle.
    split.
    + intros Hsum y Hy. apply elem_of_cons in Hy as [->|Hy]; [lia|].
      apply IH; [lia|done].
    + intros Hall.
      assert (0 < f x)%nat by (apply Hall; constructor).
      assert (sum_list (f <$> l) = length l); [|lia].
      apply IH. intros y Hy. apply Hall. by constructor.
Qed.

Lemma any_as_int_contains (markers : list string) (s : string) :
  (0 < any_as_int (λ marker, str_in marker s) markers)%nat
  ↔ contains_any markers s.
Proof.
  rewrite any_as_int_pos. unfold contains_any. split.
  - intros (marker & Hin & (pre & post & ->)%str_in_spec). by exists marker, pre, post.
  - intros (marker & pre & post & Hin & ->). exists marker. split; [done|].
    apply str_in_spec. by exists pre, post.
Qed.

Lemma sum_ones_contains (markers : list string) (s : string) :
  (0 < sum_ones (λ marker, str_in marker s) markers)%nat
  ↔ contains_any markers s.
Proof.
  rewrite sum_ones_pos. unfold contains_any. split.
  - intros (marker & Hin & (pre & post & ->)%str_in_spec). by exists marker, pre, post.
  - intros (marker & pre & post & Hin & ->). exists marker. split; [done|].
    apply str_in_spec. by exists pre, post.
Qed.

(** X5.  [refusal_rate] is positive exactly when some response, in
    lower case, holds a refusal marker, and it is 1 exactly when every
    response does; the same for [list_usage_rate] and the list markers,
    matched on the response as it is. *)
Theorem presence_rates_extremes (md5_hexdigest : string → string)
    (responses : list string) :
  responses ≠ [] →
  ∃ refusal list_usage,
    get_metric md5_hexdigest "refusal_rate" responses = Ok (Some (VNum refusal))
    ∧ get_metric md5_hexdigest "list_usage_rate" responses
      = Ok (Some (VNum list_usage))
    ∧ (0 < refusal ↔
       ∃ r, r ∈ responses ∧ contains_any refusal_markers (lower r))
    ∧ (refusal = 1 ↔
       ∀ r, r ∈ responses → contains_any refusal_markers (lower r))
    ∧ (0 < list_usage ↔ ∃ r, r ∈ responses ∧ contains_any list_markers r)
    ∧ (list_usage = 1 ↔ ∀ r, r ∈ responses → contains_any list_markers r).
Proof.
  intros Hne.
  rewrite get_metric_refusal_rate, get_metric_list_usage_rate by done.
  apply length_nonempty in Hne. assert (0 < length responses)%nat by lia.
  do 2 eexists. split; [done|]. split; [done|].
  rewrite !rate_pos_iff, !rate_eq_1_iff by done.
  rewrite !sum_list_fmap_pos.
  rewrite !sum_list_fmap_full by (intros r; apply any_as_int_le).
  repeat split.
  - intros (r & Hr & Hpos). exists r. by rewrite <-any_as_int_contains.
  - intros (r & Hr & Hpos). exists r. by rewrite any_as_int_contains.
  - intros Hall r Hr. by apply any_as_int_contains, Hall.
  - intros Hall r Hr. by apply any_as_int_contains, Hall.
  - intros (r & Hr & Hpos). exists r. by rewrite <-any_as_int_contains.
  - intros (r & Hr & Hpos). exists r. by rewrite any_as_int_contains.
  - intros Hall r Hr. by apply any_as_int_contains, Hall.
  - intros Hall r Hr. by apply any_as_int_contains, Hall.
Qed.

(** X6.  [hedging_rate] is positive exactly when some response, in
    lower case, holds a hedge term; the same for [first_person_rate]
    and the first-person markers. *)
Theorem counting_rates_pos_iff (md5_hexdigest : string → string)
    (responses : list string) :
  responses ≠ [] →
  ∃ hedging first_person_q,
    get_metric md5_hexdigest "hedging_rate" responses = Ok (Some (VNum hedging))
    ∧ get_metric md5_hexdigest "first_person_rate" responses
      = Ok (Some (VNum first_person_q))
    ∧ (0 < hedging ↔ ∃ r, r ∈ responses ∧ contains_any hedge_words (lower r))
    ∧ (0 < first_person_q ↔
       ∃ r, r ∈ responses ∧ contains_any first_person (lower r)).
Proof.
  intros Hne.
  rewrite get_metric_hedging_rate, get_metric_first_person_rate by done.
  apply length_nonempty in Hne. assert (0 < length responses)%nat by lia.
  do 2 eexists. split; [done|]. split; [done|].
  rewrite !rate_pos_iff by done. rewrite !sum_list_fmap_pos.
  repeat split.
  - intros (r & Hr & Hpos). exists r. by rewrite <-sum_ones_contains.
  - intros (r & Hr & Hpos). exists r. by rewrite sum_ones_contains.
  - intros (r & Hr & Hpos). exists r. by rewrite <-sum_ones_contains.
  - intros (r & Hr & Hpos). exists r. by rewrite sum_ones_contains.
Qed.

(** X8.  Two lists of responses that agree up to the case of their
    letters get the same [hedging_rate], [refusal_rate] and
    [first_person_rate]. *)
Theorem lexical_rates_case_insensitive (md5_hexdigest : string → string)
    (responses responses' : list string) :
  lower <$> responses = lower <$> responses' →
  get_metric md5_hexdigest "hedging_rate" responses
  = get_metric md5_hexdigest "hedging_rate" responses'
  ∧ get_metric md5_hexdigest "refusal_rate" responses
    = get_metric md5_hexdigest "refusal_rate" responses'
  ∧ get_metric md5_hexdigest "first_person_rate" responses
    = get_metric md5_hexdigest "first_person_rate" responses'.
Proof.
  intros Hlower.
  assert (length responses = length responses') as Hlen.
  { by rewrite <-(length_fmap lower responses), Hlower, length_fmap. }
  destruct (decide (responses = [])) as [->|Hne].
  { destruct responses'; [done|discriminate]. }
  assert (responses' ≠ []) as Hne' by (intros ->; by destruct responses).
  rewrite !get_metric_hedging_rate, !get_metric_refusal_rate,
    !get_metric_first_person_rate by done.
  rewrite Hlen.
  assert (∀ (F : string → nat) (l : list string),
            (λ r, F (lower r)) <$> l = F <$> (lower <$> l)) as Hcompose.
  { intros F l. by rewrite <-list_fmap_compose. }
  rewrite !(Hcompose (λ s, sum_ones (λ w, str_in w s) hedge_words)).
  rewrite !(Hcompose (λ s, any_as_int (λ w, str_in w s) refusal_markers)).
  rewrite !(Hcompose (λ s, sum_ones (λ w, str_in w s) first_person)).
  by rewrite Hlower.
Qed.

(** ** Comparison: when the loop returns *)

Lemma item_effect_is_Ok (current : gmap string value) (key : string)
    (old_val : value) :
  is_Ok (item_effect current (key, old_val))
  ↔ (key ≠ "response_hash" →
     ∃ o n, old_val = VNum o ∧ default old_val (current !! key) = VNum n).
Proof.
  unfold item_effect. case_decide as Hkey.
  - split; [done|]. intros _. by eexists.
  - split.
    + intros [eff Heff] _. destruct old_val as [o|]; [|done].
      destruct (default (VNum o) (current !! key)) as [n|]; [|done].
      by exists o, n.
    + intros Hnum. destruct (Hnum Hkey) as (o & n & -> & ->). by eexists.
Qed.

Lemma for_each_compare_is_Ok (current : gmap string value)
    (items : list (string * value)) (st : compare_state) :
  is_Ok (for_each (compare_step current) st items)
  ↔ ∀ item, item ∈ items → is_Ok (item_effect current item).
Proof.
  revert st. induction items as [|item items IH]; intros st; simpl.
  - split; [|by eexists]. intros _ item Hin. by apply elem_of_nil in Hin.
  - rewrite compare_step_effect.
    destruct (item_effect current item) as [eff|e] eqn:Heff; simpl.
    + rewrite IH. split.
      * intros Hall x Hx. apply elem_of_cons in Hx as [->|Hx]; [by eexists|auto].
      * intros Hall x Hx. apply Hall. by constructor.
    + split; [by intros [? ?]|]. intros Hall.
      destruct (Hall item) as [eff Heff']; [constructor|congruence].
Qed.

(** ** The comparison on doubles: exceptions and the changed metrics *)

Section DoublesProperties.

Import Doubles.

Lemma dict_get_set_eq {V} (d : dict V) (key : string) (v : V) :
  dict_get (dict_set d key v) key = Some v.
Proof.
  induction d as [|[k v'] d IH]; simpl.
  - by rewrite decide_True.
  - destruct (decide (k = key)) as [->|Hne]; simpl.
    + by rewrite decide_True.
    + by rewrite decide_False.
Qed.

Lemma dict_get_set_ne {V} (d : dict V) (key key' : string) (v : V) :
  key ≠ key' → dict_get (dict_set d key v) key' = dict_get d key'.
Proof.
  intros Hne. induction d as [|[k v'] d IH]; simpl.
  - by rewrite decide_False.
  - destruct (decide (k = key)) as [->|Hk]; simpl.
    + by rewrite !decide_False.
    + by rewrite IH.
Qed.

Lemma dict_get_elem {V} (d : dict V) (key : string) (v : V) :
  dict_get d key = Some v → (key, v) ∈ d.
Proof.
  induction d as [|[k v'] d IH]; simpl; [done|].
  destruct (decide (k = key)) as [->|Hk].
  - intros [= ->]. constructor.
  - intros Hget. constructor. by apply IH.
Qed.

Lemma dict_elem_get {V} (d : dict V) (key : string) (v : V) :
  NoDup (keys d) → (key, v) ∈ d → dict_get d key = Some v.
Proof.
  unfold keys. induction d as [|[k v'] d IH]; intros Hnodup Hin.
  { by apply elem_of_nil in Hin. }
  rewrite fmap_cons in Hnodup. apply NoDup_cons in Hnodup as [Hfresh Hnodup].
  simpl. apply elem_of_cons in Hin as [[= -> ->]|Hin].
  - by rewrite decide_True.
  - rewrite decide_False; [by apply IH|].
    intros ->. apply Hfresh. apply list_elem_of_fmap. by exists (key, v).
Qed.

Lemma doubles_compare_Ok_inv (baseline current : Fingerprint)
    (r : DriftReport) :
  compare_fingerprints baseline current = Ok r →
  ∃ changed diffs,
    compare_loop (metrics baseline) (metrics current) = Ok (changed, diffs)
    ∧ drift_score r = score_of (metrics baseline) (metrics current) diffs
    ∧ changed_metrics r = changed.
Proof.
  unfold compare_fingerprints.
  destruct (compare_loop _ _) as [[changed diffs]|e]; simpl; [|done].
  intros [= <-]. by exists changed, diffs.
Qed.

Lemma doubles_step_is_Ok (current : dict value) (st : compare_state)
    (key : string) (old_val : value) :
  is_Ok (compare_step current st (key, old_val))
  ↔ (key ≠ "response_hash" →
     ∃ o n, old_val = VFloat o
            ∧ default old_val (dict_get current key) = VFloat n).
Proof.
  destruct st as [changed diffs]. unfold compare_step.
  case_decide as Hkey.
  - split; [done|]. intros _. by eexists.
  - split.
    + intros [st Hst] _. destruct old_val as [o|]; [|done].
      destruct (default (VFloat o) (dict_get current key)) as [n|]; [|done].
      by exists o, n.
    + intros Hnum. destruct (Hnum Hkey) as (o & n & -> & ->). by eexists.
Qed.

Lemma doubles_step_Raise (current : dict value) (st : compare_state)
    (item : string * value) (e : exn) :
  compare_step current st item = Raise e → e = TypeError.
Proof.
  destruct st as [changed diffs], item as [key old_val]. unfold compare_step.
  case_decide; [done|]. destruct old_val as [o|]; [|congruence].
  destruct (default (VFloat o) (dict_get current key)); congruence.
Qed.

Lemma doubles_loop_is_Ok (current : dict value)
    (items : list (string * value)) (st : compare_state) :
  is_Ok (for_each (compare_step current) st items)
  ↔ ∀ item, item ∈ items →
      item.1 ≠ "response_hash" →
      ∃ o n, item.2 = VFloat o
             ∧ default item.2 (dict_get current item.1) = VFloat n.
Proof.
  revert st. induction items as [|[key old_val] items IH]; intros st; simpl.
  - split; [|by eexists]. intros _ item Hin. by apply elem_of_nil in Hin.
  - destruct (compare_step current st (key, old_val)) as [st1|e] eqn:Hstep;
      simpl.
    + rewrite IH. split.
      * intros Hall item Hin. apply elem_of_cons in Hin as [->|Hin]; [|auto].
        apply (doubles_step_is_Ok current st key old_val). by eexists.
      * intros Hall item Hin. apply Hall. by constructor.
    + split; [by intros [? ?]|]. intros Hall.
      assert (is_Ok (compare_step current st (key, old_val))) as [st1 Hst1].
      { apply doubles_step_is_Ok. apply (Hall (key, old_val)). constructor. }
      congruence.
Qed.

Lemma doubles_loop_Raise (current : dict value)
    (items : list (string * value)) (st : compare_state) (e : exn) :
  for_each (compare_step current) st items = Raise e → e = TypeError.
Proof.
  revert st. induction items as [|item items IH]; intros st; simpl; [done|].
  destruct (compare_step current st item) as [st1|e'] eqn:Hstep; simpl.
  - apply IH.
  - intros [= <-]. by eapply doubles_step_Raise.
Qed.

Lemma doubles_step_changed_other (current : dict value)
    (st st' : compare_state) (key k : string) (old_val : value) :
  compare_step current st (key, old_val) = Ok st' →
  key ≠ k →
  dict_get st'.1 k = dict_get st.1 k.
Proof.
  intros Hstep Hne. destruct st as [changed diffs].
  unfold compare_step in Hstep. case_decide; [by injection Hstep as <-|].
  destruct old_val as [o|]; [|done].
  destruct (default (VFloat o) (dict_get current key)) as [n|]; [|done].
  injection Hstep as <-. simpl.
  destruct (tenth <? relative_difference o n)%float; [|done].
  by apply dict_get_set_ne.
Qed.

Lemma doubles_step_changed_Some (current : dict value)
    (st st' : compare_state) (key : string) (old_val : value)
    (v : float * float) :
  compare_step current st (key, old_val) = Ok st' →
  dict_get st'.1 key = Some v →
  dict_get st.1 key = Some v
  ∨ (key ≠ "response_hash" ∧ old_val = VFloat v.1
     ∧ default old_val (dict_get current key) = VFloat v.2
     ∧ (tenth <? relative_difference v.1 v.2)%float = true).
Proof.
  destruct st as [changed diffs]. unfold compare_step.
  case_decide as Hkey; [intros [= <-]; by left|].
  destruct old_val as [o|]; [|done].
  destruct (default (VFloat o) (dict_get current key)) as [n|] eqn:Hnew; [|done].
  intros [= <-]; simpl.
  destruct (tenth <? relative_difference o n)%float eqn:Hlt; [|by left].
  rewrite dict_get_set_eq. intros [= <-]. by right.
Qed.

Lemma doubles_loop_changed_kept (current : dict value)
    (items : list (string * value)) (st st' : compare_state)
    (k : string) (v : float * float) :
  k ∉ items.*1 →
  for_each (compare_step current) st items = Ok st' →
  dict_get st.1 k = Some v → dict_get st'.1 k = Some v.
Proof.
  intros Hk Hrun Hst.
  eapply (for_each_invariant _ (λ st, dict_get st.1 k = Some v));
    [|exact Hst|exact Hrun].
  intros st0 [key old_val] st1 Hin Hst0 Hstep.
  rewrite (doubles_step_changed_other _ _ _ _ _ _ Hstep); [done|].
  intros ->. apply Hk. apply list_elem_of_fmap. by exists (k, old_val).
Qed.

Lemma doubles_loop_changed_inserted (current : dict value)
    (items : list (string * value)) (st st' : compare_state)
    (k : string) (o n : float) :
  NoDup items.*1 →
  (k, VFloat o) ∈ items →
  k ≠ "response_hash" →
  default (VFloat o) (dict_get current k) = VFloat n →
  (tenth <? relative_difference o n)%float = true →
  for_each (compare_step current) st items = Ok st' →
  dict_get st'.1 k = Some (o, n).
Proof.
  intros Hnodup Hin Hkey Hnew Hlt. revert st.
  induction items as [|item items IH]; intros st Hrun.
  { by apply elem_of_nil in Hin. }
  rewrite fmap_cons in Hnodup. apply NoDup_cons in Hnodup as [Hfresh Hnodup].
  simpl in Hrun.
  destruct (compare_step current st item) as [st1|e] eqn:Hstep; [|done].
  simpl in Hrun. apply elem_of_cons in Hin as [<-|Hin]; [|by eapply IH].
  eapply doubles_loop_changed_kept; [exact Hfresh|exact Hrun|].
  destruct st as [changed diffs]. unfold compare_step in Hstep.
  rewrite decide_False in Hstep by done. rewrite Hnew, Hlt in Hstep.
  injection Hstep as <-. simpl. apply dict_get_set_eq.
Qed.

(** The relative difference of 1.0 and 1.1 is rounded to
    0.10000000000000009, above the threshold 0.10. *)
Example relative_difference_rounded_up :
  relative_difference 1 0x1.199999999999ap+0 = 0x1.99999999999ap-4%float
  ∧ (tenth <? relative_difference 1 0x1.199999999999ap+0)%float = true.
Proof. split; vm_compute; reflexivity. Qed.

End DoublesProperties.

(** X10.  On metrics that are floats or strings, [compare_fingerprints]
    returns a report exactly when every baseline value other than
    [response_hash], and the value the current fingerprint holds for
    its key, is a float; the only exception it raises is [TypeError]. *)
Theorem compare_doubles_exceptions (baseline current : Doubles.Fingerprint) :
  (is_Ok (Doubles.compare_fingerprints baseline current)
   ↔ Doubles.comparable (Doubles.metrics baseline) (Doubles.metrics current))
  ∧ (∀ e, Doubles.compare_fingerprints baseline current = Raise e →
          e = TypeError).
Proof.
  split.
  - transitivity (is_Ok (Doubles.compare_loop (Doubles.metrics baseline)
                           (Doubles.metrics current))).
    { unfold Doubles.compare_fingerprints.
      destruct (Doubles.compare_loop _ _) as [[changed diffs]|e]; simpl.
      - split; intros _; by eexists.
      - split; by intros [? ?]. }
    unfold Doubles.compare_loop. rewrite doubles_loop_is_Ok.
    unfold Doubles.comparable. split.
    + intros Hall key old_val Hin Hkey. exact (Hall (key, old_val) Hin Hkey).
    + intros Hcmp [key old_val] Hin Hkey. by apply Hcmp.
  - intros e. unfold Doubles.compare_fingerprints, Doubles.compare_loop.
    destruct (for_each _ _ _) as [[changed diffs]|e'] eqn:Hrun; simpl; [done|].
    intros [= <-]. by eapply doubles_loop_Raise.
Qed.

(** X11.  In a report on a baseline dict, [changed_metrics] holds [k]
    with [(o, n)] exactly when [k] is a baseline key other than
    [response_hash] with the float [o], the current value (the
    baseline's, where the key is missing) is the float [n], and their
    relative difference, as computed on doubles, exceeds the double
    0.10. *)
Theorem changed_metrics_on_doubles (baseline current : Doubles.Fingerprint)
    (r : Doubles.DriftReport) :
  NoDup (Doubles.keys (Doubles.metrics baseline)) →
  Doubles.compare_fingerprints baseline current = Ok r →
  ∀ k o n,
    Doubles.dict_get (Doubles.changed_metrics r) k = Some (o, n)
    ↔ k ≠ "response_hash"
      ∧ Doubles.dict_get (Doubles.metrics baseline) k = Some (Doubles.VFloat o)
      ∧ default (Doubles.VFloat o) (Doubles.dict_get (Doubles.metrics current) k)
        = Doubles.VFloat n
      ∧ PrimFloat.ltb Doubles.tenth (Doubles.relative_difference o n) = true.
Proof.
  intros Hnodup (changed & diffs & Hrun & _ & ->)%doubles_compare_Ok_inv k o n.
  unfold Doubles.compare_loop in Hrun. split.
  - revert k o n.
    change (∀ k o n, Doubles.dict_get (changed, diffs).1 k = Some (o, n) →
              k ≠ "response_hash"
              ∧ Doubles.dict_get (Doubles.metrics baseline) k
                = Some (Doubles.VFloat o)
              ∧ default (Doubles.VFloat o)
                  (Doubles.dict_get (Doubles.metrics current) k)
                = Doubles.VFloat n
              ∧ PrimFloat.ltb Doubles.tenth (Doubles.relative_difference o n)
                = true).
    eapply (for_each_invariant _
              (λ st, ∀ k o n, Doubles.dict_get st.1 k = Some (o, n) →
                 k ≠ "response_hash"
                 ∧ Doubles.dict_get (Doubles.metrics baseline) k
                   = Some (Doubles.VFloat o)
                 ∧ default (Doubles.VFloat o)
                     (Doubles.dict_get (Doubles.metrics current) k)
                   = Doubles.VFloat n
                 ∧ PrimFloat.ltb Doubles.tenth (Doubles.relative_difference o n)
                   = true)); [| |exact Hrun].
    + intros st [key old_val] st1 Hin Hst Hstep k o n Hk.
      destruct (decide (key = k)) as [->|Hne].
      * destruct (doubles_step_changed_Some _ _ _ _ _ _ Hstep Hk)
          as [Hold|(Hkey & -> & Hnew & Hlt)]; [by apply Hst|].
        split; [done|]. split; [|done]. by apply dict_elem_get.
      * rewrite (doubles_step_changed_other _ _ _ _ _ _ Hstep Hne) in Hk.
        by apply Hst.
    + intros k o n Hk. done.
  - intros (Hkey & Hold & Hnew & Hlt).
    apply (doubles_loop_changed_inserted (Doubles.metrics current)
             (Doubles.metrics baseline) ([], []) (changed, diffs) k o n);
      try done.
    by apply dict_get_elem.
Qed.

(** ** Comparison: unchanged metrics *)

Lemma sum_Qc_zero (xs : list Qc) :
  Forall (Qcle 0) xs → sum_Qc xs = 0 ↔ Forall (λ x, x = 0) xs.
Proof.
  induction 1 as [|x xs Hx Hxs IH]; simpl.
  - split; [constructor|done].
  - split.
    + intros Hsum. pose proof (sum_Qc_nonneg xs Hxs) as Hs.
      assert (x = 0) as ->.
      { apply Qcle_antisym; [|done]. rewrite <-Hsum.
        rewrite <-(Qcplus_0_r x) at 1. by apply Qcplus_le_mono_l. }
      rewrite Qcplus_0_l in Hsum. constructor; [done|by apply IH].
    + intros Hall. apply Forall_cons in Hall as [-> Hall].
      rewrite Qcplus_0_l. by apply IH.
Qed.

Lemma np_mean_zeros (xs : list Qc) : Forall (λ x, x = 0) xs → np_mean xs = 0.
Proof.
  intros Hall. unfold np_mean.
  assert (sum_Qc xs = 0) as ->.
  { apply sum_Qc_zero; [|done].
    eapply Forall_impl; [exact Hall|]. by intros x ->. }
  unfold Qcdiv. apply Qcmult_0_l.
Qed.

Lemma unchanged_metrics_report (baseline current : Fingerprint) :
  numeric_metrics (metrics baseline) →
  (∀ k old_val, metrics baseline !! k = Some old_val → k ≠ "response_hash" →
     default old_val (metrics current !! k) = old_val) →
  ∃ r, compare_fingerprints baseline current = Ok r
       ∧ changed_metrics r = ∅
       ∧ drift_score r
         = (if decide (metrics baseline !! "response_hash"
                       = metrics current !! "response_hash")
            then 0 else tenth)
       ∧ drift_detected r = false.
Proof.
  intros Hnum Hsame.
  assert (is_Ok (compare_loop (metrics baseline) (metrics current))) as [st Hrun].
  { apply for_each_compare_is_Ok. intros [key old_val] Hin.
    apply elem_of_map_to_list in Hin. apply item_effect_is_Ok. intros Hkey.
    destruct (Hnum key old_val Hin Hkey) as [o ->].
    exists o, o. split; [done|]. by apply Hsame. }
  assert (st.1 = ∅ ∧ Forall (λ d, d = 0) st.2) as [Hchanged Hdiffs].
  { unfold compare_loop in Hrun.
    eapply (for_each_invariant _ (λ st, st.1 = ∅ ∧ Forall (λ d, d = 0) st.2));
      [| |exact Hrun]; [|by split].
    intros [changed diffs] [key old_val] st1 Hin [Hc Hd] Hstep.
    apply elem_of_map_to_list in Hin. simpl in Hc, Hd.
    unfold compare_step in Hstep.
    case_decide as Hkey; [by injection Hstep as <-|].
    destruct (Hnum key old_val Hin Hkey) as [o ->].
    rewrite (Hsame key (VNum o) Hin Hkey) in Hstep.
    rewrite relative_difference_same in Hstep.
    case_decide as Hlt; [by apply tenth_not_lt_0 in Hlt|].
    injection Hstep as <-. simpl. split; [done|].
    apply Forall_app. split; [done|]. by apply Forall_singleton. }
  destruct st as [changed diffs]. simpl in Hchanged, Hdiffs. subst changed.
  unfold compare_fingerprints. rewrite Hrun. simpl.
  eexists. split; [done|]. split; [done|].
  assert (score_of (metrics baseline) (metrics current) diffs
          = (if decide (metrics baseline !! "response_hash"
                        = metrics current !! "response_hash")
             then 0 else tenth)) as Hscore.
  { unfold score_of.
    assert (match diffs with [] => 0 | _ :: _ => np_mean diffs end = 0) as ->.
    { destruct diffs; [done|]. by apply np_mean_zeros. }
    rewrite Qcplus_0_l.
    destruct (decide (metrics baseline !! "response_hash"
                      = metrics current !! "response_hash")) as [Heq|Hne].
    - by rewrite decide_False by (by intros ?).
    - by rewrite decide_True. }
  split; [done|].
  unfold drift_detected. simpl. rewrite Hscore.
  by case_decide.
Qed.



(** ** Comparison: no changed metric *)

Lemma sum_Qc_le (xs : list Qc) (c : Qc) :
  Forall (λ x, x ≤ c) xs → sum_Qc xs ≤ c * Qc_of_nat (length xs).
Proof.
  induction 1 as [|x xs Hx _ IH]; simpl.
  - rewrite Qc_of_nat_0, Qcmult_0_r. apply Qcle_refl.
  - assert (Qc_of_nat (S (length xs)) = 1 + Qc_of_nat (length xs)) as ->.
    { apply Qc_is_canon. unfold Qc_of_nat, Qc_of_Z; simpl.
      rewrite Qred_correct. unfold Qeq, Qplus; simpl. lia. }
    rewrite Qcmult_plus_distr_r, Qcmult_1_r.
    by apply Qcplus_le_compat.
Qed.

Lemma np_mean_le (xs : list Qc) (c : Qc) :
  xs ≠ [] → Forall (λ x, x ≤ c) xs → np_mean xs ≤ c.
Proof.
  intros Hne Hxs. unfold np_mean. apply length_nonempty in Hne.
  apply Qcdiv_le_upper; [apply Qc_of_nat_pos; lia|by apply sum_Qc_le].
Qed.

(** X15.  A report with no changed metric, on fingerprints whose
    [response_hash] lookups agree, detects no drift. *)
Theorem no_changed_metric_no_drift (baseline current : Fingerprint)
    (r : DriftReport) :
  compare_fingerprints baseline current = Ok r →
  changed_metrics r = ∅ →
  metrics baseline !! "response_hash" = metrics current !! "response_hash" →
  drift_detected r = false.
Proof.
  intros (changed & diffs & Hrun & Hscore & ->)%compare_fingerprints_Ok_inv
    -> Hhash.
  assert (Forall (λ d, d ≤ tenth) diffs) as Hdiffs.
  { unfold compare_loop in Hrun.
    assert (((∅ : gmap string (Qc * Qc)), diffs).1 = ∅ →
            Forall (λ d, d ≤ tenth) ((∅ : gmap string (Qc * Qc)), diffs).2)
      as Hinv; [|by apply Hinv].
    eapply (for_each_invariant _
              (λ st, st.1 = ∅ → Forall (λ d, d ≤ tenth) st.2));
      [| |exact Hrun].
    - intros [changed diffs0] [key old_val] st1 _ Hst Hstep Hempty.
      unfold compare_step in Hstep.
      case_decide; [injection Hstep as <-; by apply Hst|].
      destruct old_val as [o|]; [|done].
      destruct (default (VNum o) (metrics current !! key)) as [n|]; [|done].
      injection Hstep as <-. simpl in *.
      case_decide as Hlt; [by apply insert_non_empty in Hempty|].
      apply Forall_app. split; [by apply Hst|].
      apply Forall_singleton. by apply Qcnot_lt_le.
    - intros _. constructor. }
  assert (match diffs with [] => 0 | _ :: _ => np_mean diffs end ≤ tenth)
    as Hmean.
  { destruct diffs; [done|]. by apply np_mean_le. }
  unfold drift_detected. rewrite bool_decide_eq_false, Hscore.
  unfold score_of. rewrite decide_False by (by intros ?).
  apply Qcle_not_lt. etrans; [exact Hmean|done].
Qed.

(** ** Collecting a fingerprint *)

Section PipelineProperties.

Context {S : Type}.
Variable model_fn : string → S → result string * S.

Lemma run_probes_Ok (probes responses out : list string) (s s' : S) :
  run_probes S model_fn probes responses s = (Ok out, s') →
  ∃ answers, out = responses ++ answers ∧ length answers = length probes.
Proof.
  revert responses s. induction probes as [|probe probes IH];
    intros responses s Hrun; simpl in Hrun.
  - injection Hrun as <- <-. exists []. by rewrite app_nil_r.
  - destruct (model_fn probe s) as [[response|e] s1]; [|done].
    destruct (IH _ _ Hrun) as (answers & -> & Hlen).
    exists (response :: answers). split; [by rewrite <-app_assoc|].
    simpl. by rewrite Hlen.
Qed.

Lemma run_probes_Raise (probes responses : list string) (s s' : S) (e : exn) :
  run_probes S model_fn probes responses s = (Raise e, s') →
  ∃ probe s0, probe ∈ probes ∧ model_fn probe s0 = (Raise e, s').
Proof.
  revert responses s. induction probes as [|probe probes IH];
    intros responses s Hrun; simpl in Hrun; [done|].
  destruct (model_fn probe s) as [[response|e'] s1] eqn:Hcall.
  - destruct (IH _ _ Hrun) as (probe' & s0 & Hin & Hraise).
    exists probe', s0. split; [by constructor|done].
  - injection Hrun as <- <-. exists probe, s. split; [constructor|done].
Qed.

End PipelineProperties.

(** X20.  A fingerprint returned by [collect_fingerprint] carries the
    given model name and the timestamp read, one response per probe,
    and the metrics [extract_metrics] gives for these responses, with
    all eight keys. *)
Theorem collect_fingerprint_result {S : Type} (md5_hexdigest : string → string)
    (now : string) (model_fn : string → S → result string * S)
    (model_name : string) (s s' : S) (fp : Fingerprint) :
  collect_fingerprint md5_hexdigest now S model_fn model_name s = (Ok fp, s') →
  model fp = model_name
  ∧ timestamp fp = now
  ∧ length (raw_responses fp) = length PROBES
  ∧ extract_metrics md5_hexdigest (raw_responses fp) = Ok (metrics fp)
  ∧ dom (metrics fp)
    = {["avg_length"; "length_variance"; "avg_sentences"; "hedging_rate";
        "refusal_rate"; "list_usage_rate"; "first_person_rate";
        "response_hash"]}.
Proof.
  unfold collect_fingerprint.
  destruct (run_probes S model_fn PROBES [] s) as [[responses|e] s1] eqn:Hrun;
    [|done].
  destruct (run_probes_Ok model_fn _ _ _ _ _ Hrun) as (answers & -> & Hlen).
  simpl. assert (answers ≠ []) as Hne by (by destruct answers).
  destruct (extract_metrics_nonempty md5_hexdigest answers Hne)
    as (m & Hm & Hdom).
  rewrite Hm. simpl. by intros [= <- <-].
Qed.

(** X21.  Whatever [collect_fingerprint] raises was raised by the
    model function on one of the probes: the extraction never fails
    there, the probe list not being empty. *)
Theorem collect_fingerprint_raises_model_errors {S : Type}
    (md5_hexdigest : string → string) (now : string)
    (model_fn : string → S → result string * S)
    (model_name : string) (s s' : S) (e : exn) :
  collect_fingerprint md5_hexdigest now S model_fn model_name s = (Raise e, s') →
  ∃ probe s0, probe ∈ PROBES ∧ model_fn probe s0 = (Raise e, s').
Proof.
  unfold collect_fingerprint.
  destruct (run_probes S model_fn PROBES [] s) as [[responses|e'] s1] eqn:Hrun.
  - destruct (run_probes_Ok model_fn _ _ _ _ _ Hrun) as (answers & -> & Hlen).
    simpl. assert (answers ≠ []) as Hne by (by destruct answers).
    destruct (extract_metrics_nonempty md5_hexdigest answers Hne)
      as (m & Hm & _).
    by rewrite Hm.
  - intros [= <- <-]. by eapply run_probes_Raise.
Qed.

(** ** The prompts a fingerprint sends *)

Lemma run_probes_logged_cons (answer : string → result string)
    (probe : string) (probes responses log : list string) :
  run_probes (list string) (logged answer) (probe :: probes) responses log
  = match answer probe with
    | Ok response =>
        run_probes (list string) (logged answer) probes
          (responses ++ [response]) (log ++ [probe])
    | Raise e => (Raise e, log ++ [probe])
    end.
Proof. simpl. unfold logged at 1. by destruct (answer probe). Qed.

Lemma run_probes_logged (answer : string → result string)
    (probes responses log : list string) :
  ∃ sent,
    (run_probes (list string) (logged answer) probes responses log).2
    = log ++ sent
    ∧ sent `prefix_of` probes
    ∧ (is_Ok (run_probes (list string) (logged answer) probes responses log).1 →
       sent = probes)
    ∧ (∀ e, (run_probes (list string) (logged answer) probes responses log).1
            = Raise e →
         ∃ before probe, sent = before ++ [probe] ∧ answer probe = Raise e
                         ∧ Forall (λ p, is_Ok (answer p)) before).
Proof.
  revert responses log. induction probes as [|probe probes IH];
    intros responses log.
  - exists []. simpl. rewrite app_nil_r. repeat split; [done..|]. by intros e.
  - rewrite run_probes_logged_cons.
    destruct (answer probe) as [response|e] eqn:Hanswer.
    + destruct (IH (responses ++ [response]) (log ++ [probe]))
        as (sent & Hlog & Hpre & Hok & Hraise).
      exists (probe :: sent). rewrite Hlog, <-app_assoc. split; [done|].
      split; [by apply prefix_cons|]. split.
      * intros Hres. by rewrite (Hok Hres).
      * intros e Hres. destruct (Hraise e Hres) as (before & p & -> & Hp & Hall).
        exists (probe :: before), p. split; [done|]. split; [done|].
        constructor; [by eexists|done].
    + exists (probe :: nil). simpl. split; [done|].
      split; [by apply prefix_cons, prefix_nil|]. split.
      * by intros [? ?].
      * intros e' [= <-]. exists [], probe. by repeat split.
Qed.

(** X22.  The prompts [collect_fingerprint] sends are the probes, in
    order, each once: all of them when it returns, and those up to and
    including the first one on which the model fails when it raises. *)
Theorem probes_sent_in_order (md5_hexdigest : string → string) (now : string)
    (answer : string → result string) (model_name : string) :
  ∃ sent,
    (collect_fingerprint md5_hexdigest now (list string) (logged answer)
       model_name []).2 = sent
    ∧ sent `prefix_of` PROBES
    ∧ (is_Ok (collect_fingerprint md5_hexdigest now (list string)
                (logged answer) model_name []).1 → sent = PROBES)
    ∧ (∀ e, (collect_fingerprint md5_hexdigest now (list string)
               (logged answer) model_name []).1 = Raise e →
         ∃ before probe, sent = before ++ [probe] ∧ answer probe = Raise e
                         ∧ Forall (λ p, is_Ok (answer p)) before).
Proof.
  destruct (run_probes_logged answer PROBES [] [])
    as (sent & Hlog & Hpre & Hok & Hraise).
  exists sent. unfold collect_fingerprint.
  destruct (run_probes (list string) (logged answer) PROBES [] [])
    as [[responses|e] log] eqn:Hrun; cbn [fst snd] in *; subst log.
  - split; [done|]. split; [done|]. split; [intros _; apply Hok; by eexists|].
    intros e He. exfalso.
    destruct (run_probes_Ok (logged answer) _ _ _ _ _ Hrun)
      as (answers & -> & Hlen).
    assert (answers ≠ []) as Hne by (by destruct answers).
    destruct (extract_metrics_nonempty md5_hexdigest answers Hne)
      as (m & Hm & _).
    cbn [app fst] in He. by rewrite Hm in He.
  - split; [done|]. split; [done|]. split; [by intros [? ?]|].
    intros e0 [= <-]. by apply Hraise.
Qed.

(** ** Checking against a baseline *)

Lemma run_probes_stateless {S : Type} (answer : string → string)
    (probes responses : list string) (s : S) :
  run_probes S (stateless answer) probes responses s
  = (Ok (responses ++ (answer <$> probes)), s).
Proof.
  revert responses. induction probes as [|probe probes IH];
    intros responses; simpl.
  - by rewrite app_nil_r.
  - rewrite IH. by rewrite <-app_assoc.
Qed.

Lemma collect_fingerprint_stateless {S : Type}
    (md5_hexdigest : string → string) (now : string)
    (answer : string → string) (model_name : string) (s : S) :
  ∃ m, extract_metrics md5_hexdigest (answer <$> PROBES) = Ok m
       ∧ collect_fingerprint md5_hexdigest now S (stateless answer) model_name s
         = (Ok {| model := model_name; timestamp := now; metrics := m;
                  raw_responses := answer <$> PROBES |}, s).
Proof.
  destruct (extract_metrics_nonempty md5_hexdigest (answer <$> PROBES))
    as (m & Hm & _); [done|].
  exists m. split; [done|].
  unfold collect_fingerprint. rewrite run_probes_stateless.
  rewrite app_nil_l. by rewrite Hm.
Qed.

(** X24.  With a codec that loses nothing, a baseline collected from
    a model whose answers are a function of the prompt and saved, then
    checked against the same model, gives the score 0, no changed
    metric and no drift, whatever the timestamps, the model names and
    the rest of the file store. *)
Theorem detect_drift_same_model {text S : Type}
    (json_dumps : json → text) (json_loads : text → result json)
    (md5_hexdigest : string → string) (now now' : string)
    (answer : string → string) (model_name model_name' path : string)
    (fs : file_store text) (s s' : S) :
  (∀ fp, json_representable text json_dumps json_loads fp) →
  ∃ baseline r,
    collect_fingerprint md5_hexdigest now S (stateless answer) model_name s
    = (Ok baseline, s)
    ∧ detect_drift text json_loads md5_hexdigest now' S (stateless answer)
        path model_name' (save text json_dumps baseline path fs) s'
      = (Ok r, s')
    ∧ drift_score r = 0
    ∧ changed_metrics r = ∅
    ∧ drift_detected r = false.
Proof.
  intros Hcodec.
  destruct (collect_fingerprint_stateless md5_hexdigest now answer model_name s)
    as (m & Hm & Hbase).
  destruct (collect_fingerprint_stateless md5_hexdigest now' answer model_name' s')
    as (m' & Hm' & Hcur).
  assert (m' = m) as -> by congruence. clear Hm'.
  set (baseline := {| model := model_name; timestamp := now; metrics := m;
                      raw_responses := answer <$> PROBES |}) in *.
  set (current := {| model := model_name'; timestamp := now'; metrics := m;
                     raw_responses := answer <$> PROBES |}) in *.
  assert (load text json_loads path (save text json_dumps baseline path fs)
          = Ok baseline) as Hload.
  { unfold load, save, file_store in *. rewrite lookup_insert_eq.
    rewrite (Hcodec baseline). apply fingerprint_of_data_of_fingerprint. }
  destruct (unchanged_metrics_report baseline current)
    as (r & Hr & Hchanged & Hscore & Hdetected).
  { exact (extract_metrics_numeric _ _ _ Hm). }
  { intros k old_val Hold _. cbn [metrics current baseline] in *.
    by rewrite Hold. }
  exists baseline, r. split; [done|].
  unfold detect_drift. rewrite Hload, Hcur, Hr. split; [done|].
  rewrite decide_True in Hscore by done. done.
Qed.

Lemma detect_drift_same_model_witness :
  ∃ baseline r,
    collect_fingerprint (λ s, s) "2024-01-01" unit
      (stateless (create_mock_model_fn "v1")) "mock-v1" tt
    = (Ok baseline, tt)
    ∧ detect_drift json Ok (λ s, s) "2024-01-02" unit
        (stateless (create_mock_model_fn "v1")) "baseline.json" "mock-v1"
        (save json (λ data, data) baseline "baseline.json" ∅) tt
      = (Ok r, tt)
    ∧ drift_score r = 0
    ∧ changed_metrics r = ∅
    ∧ drift_detected r = false.
Proof.
  apply (detect_drift_same_model (λ data, data) Ok (λ s, s)
           "2024-01-01" "2024-01-02" (create_mock_model_fn "v1")
           "mock-v1" "mock-v1" "baseline.json" ∅ tt tt).
  intros fp. reflexivity.
Defined.

(** ** The mock model *)

Lemma string_app_assoc (s1 s2 s3 : string) :
  (s1 +:+ s2) +:+ s3 = s1 +:+ (s2 +:+ s3).
Proof.
  induction s1 as [|c s1 IH]; [done|].
  change (String c ((s1 +:+ s2) +:+ s3) = String c (s1 +:+ (s2 +:+ s3))).
  by rewrite IH.
Qed.

Lemma str_in_app_r (sub s1 s2 : string) :
  str_in sub s2 = true → str_in sub (s1 +:+ s2) = true.
Proof.
  intros (pre & post & ->)%str_in_spec. apply str_in_spec.
  exists (s1 +:+ pre), post. by rewrite string_app_assoc.
Qed.

Lemma Qcdiv_ge_lower (x y c : Qc) : 0 < y → c * y ≤ x → c ≤ x / y.
Proof.
  intros Hy Hx. apply (Qcmult_le_mono_pos_r _ _ y Hy).
  rewrite Qcdiv_mul_cancel; [done|]. intros ->. by apply Qclt_not_eq in Hy.
Qed.

Lemma rate_ge (a n c : nat) :
  (0 < n)%nat → (c * n ≤ a)%nat → Qc_of_nat c ≤ Qc_of_nat a / Qc_of_nat n.
Proof.
  intros Hn Ha. apply Qcdiv_ge_lower; [by apply Qc_of_nat_pos|].
  rewrite <-Qc_of_nat_mul. by apply Qc_of_nat_le.
Qed.

Lemma sum_list_fmap_ge {A} (f : A → nat) (c : nat) (l : list A) :
  (∀ x, x ∈ l → c ≤ f x)%nat → (c * length l ≤ sum_list (f <$> l))%nat.
Proof.
  induction l as [|x l IH]; intros Hf; cbn in *; [lia|].
  assert (c ≤ f x)%nat by (apply Hf; constructor).
  assert (c * length l ≤ sum_list (f <$> l))%nat; [|lia].
  apply IH. intros y Hy. apply Hf. by constructor.
Qed.

(** Every answer of the mock version "v1" holds the list marker of a
    numbered item. *)
Lemma mock_v1_has_list_marker (prompt : string) :
  any_as_int (λ marker, str_in marker (create_mock_model_fn "v1" prompt))
    list_markers = 1%nat.
Proof.
  unfold any_as_int.
  assert (existsb (λ marker, str_in marker (create_mock_model_fn "v1" prompt))
            list_markers = true) as ->; [|done].
  apply existsb_exists. exists (newline +:+ "1."). split.
  - unfold list_markers. simpl. auto.
  - unfold create_mock_model_fn. cbv beta zeta.
    destruct (decide ("v1" = "v1")) as [_|?]; [|done].
    apply str_in_app_r. reflexivity.
Qed.

(** Every answer of another version holds three hedge terms and a
    first-person marker. *)
Lemma mock_other_lower (version prompt : string) :
  version ≠ "v1" →
  ∃ body,
    lower (create_mock_model_fn version prompt)
    = body +:+ " perhaps this helps. maybe i should also mention that this could vary.".
Proof.
  intros Hv. unfold create_mock_model_fn. cbv beta zeta.
  destruct (decide (version = "v1")) as [?|_]; [done|].
  rewrite !(lower_app "I think "), (lower_app (lower _)).
  exists (lower "I think "
          +:+ lower (lower ("This is a response to: "
                            +:+ String.substring 0 50 prompt +:+ "..."))).
  rewrite string_app_assoc. reflexivity.
Qed.

Lemma mock_other_hedges (version prompt : string) :
  version ≠ "v1" →
  (3 ≤ sum_ones (λ word, str_in word (lower (create_mock_model_fn version prompt)))
         hedge_words)%nat.
Proof.
  intros Hv. destruct (mock_other_lower version prompt Hv) as [body ->].
  rewrite sum_ones_length. unfold hedge_words. simpl.
  rewrite (str_in_app_r "maybe" body), (str_in_app_r "perhaps" body),
    (str_in_app_r "could" body) by reflexivity.
  repeat match goal with
         | |- context [if ?b then _ else _] => destruct b
         end; simpl; lia.
Qed.

Lemma mock_other_first_person (version prompt : string) :
  version ≠ "v1" →
  (1 ≤ sum_ones (λ fp, str_in fp (lower (create_mock_model_fn version prompt)))
         first_person)%nat.
Proof.
  intros Hv. destruct (mock_other_lower version prompt Hv) as [body ->].
  rewrite sum_ones_length. unfold first_person. simpl.
  rewrite (str_in_app_r "i " body) by reflexivity. simpl. lia.
Qed.

(** X25.  The answers of the mock version "v1" to any non-empty list
    of prompts have [list_usage_rate] 1. *)
Theorem mock_v1_list_usage (md5_hexdigest : string → string)
    (prompts : list string) :
  prompts ≠ [] →
  get_metric md5_hexdigest "list_usage_rate"
    (create_mock_model_fn "v1" <$> prompts)
  = Ok (Some (VNum 1)).
Proof.
  intros Hne.
  assert (create_mock_model_fn "v1" <$> prompts ≠ []) as Hne'
    by (by destruct prompts).
  rewrite get_metric_list_usage_rate by done. do 3 f_equal.
  apply length_nonempty in Hne'.
  apply rate_eq_1_iff; [lia|].
  rewrite <-list_fmap_compose, length_fmap.
  apply sum_list_fmap_full.
  - intros prompt. apply any_as_int_le.
  - intros prompt _.
    change (0 < any_as_int
                  (λ marker, str_in marker (create_mock_model_fn "v1" prompt))
                  list_markers)%nat.
    rewrite mock_v1_has_list_marker. lia.
Qed.

(** X26.  The answers of any other mock version to a non-empty list
    of prompts have a [hedging_rate] of at least 3 and a
    [first_person_rate] of at least 1. *)
Theorem mock_other_version_hedges (md5_hexdigest : string → string)
    (version : string) (prompts : list string) :
  version ≠ "v1" →
  prompts ≠ [] →
  ∃ hedging first_person_q,
    get_metric md5_hexdigest "hedging_rate"
      (create_mock_model_fn version <$> prompts) = Ok (Some (VNum hedging))
    ∧ get_metric md5_hexdigest "first_person_rate"
        (create_mock_model_fn version <$> prompts)
      = Ok (Some (VNum first_person_q))
    ∧ Qc_of_nat 3 ≤ hedging
    ∧ 1 ≤ first_person_q.
Proof.
  intros Hv Hne.
  assert (create_mock_model_fn version <$> prompts ≠ []) as Hne'
    by (by destruct prompts).
  rewrite get_metric_hedging_rate, get_metric_first_person_rate by done.
  apply length_nonempty in Hne'.
  do 2 eexists. split; [done|]. split; [done|].
  rewrite <-Qc_of_nat_1.
  split; (apply rate_ge; [lia|]); apply sum_list_fmap_ge;
    intros r (prompt & -> & _)%list_elem_of_fmap.
  - by apply mock_other_hedges.
  - by apply mock_other_first_person.
Qed.

(** ** The properties above, at concrete inputs *)

Lemma extract_metrics_shape_witness :
  ∃ m, extract_metrics (λ s, s) ["Maybe the answer is 42."; "I cannot help."]
       = Ok m
       ∧ dom m = {["avg_length"; "length_variance"; "avg_sentences";
                    "hedging_rate"; "refusal_rate"; "list_usage_rate";
                    "first_person_rate"; "response_hash"]}
       ∧ numeric_metrics m
       ∧ ∃ h, m !! "response_hash" = Some (VStr h).
Proof.
  apply (extract_metrics_shape (λ s, s)
           ["Maybe the answer is 42."; "I cannot help."]).
  discriminate.
Defined.

Lemma numeric_metrics_nonneg_witness :
  ∃ m, extract_metrics (λ s, s) ["Maybe the answer is 42."; "I cannot help."]
       = Ok m
       ∧ ∀ k q, m !! k = Some (VNum q) → 0 ≤ q.
Proof.
  apply (numeric_metrics_nonneg (λ s, s)
           ["Maybe the answer is 42."; "I cannot help."]).
  discriminate.
Defined.

Lemma presence_rates_in_unit_interval_witness :
  ∃ refusal list_usage,
    get_metric (λ s, s) "refusal_rate"
      ["Maybe the answer is 42."; "I cannot help."] = Ok (Some (VNum refusal))
    ∧ get_metric (λ s, s) "list_usage_rate"
        ["Maybe the answer is 42."; "I cannot help."]
      = Ok (Some (VNum list_usage))
    ∧ 0 ≤ refusal ≤ 1
    ∧ 0 ≤ list_usage ≤ 1.
Proof.
  apply (presence_rates_in_unit_interval (λ s, s)
           ["Maybe the answer is 42."; "I cannot help."]).
  discriminate.
Defined.

Lemma counting_rates_bounded_witness :
  ∃ hedging first_person_q,
    get_metric (λ s, s) "hedging_rate"
      ["Maybe the answer is 42."; "I cannot help."] = Ok (Some (VNum hedging))
    ∧ get_metric (λ s, s) "first_person_rate"
        ["Maybe the answer is 42."; "I cannot help."]
      = Ok (Some (VNum first_person_q))
    ∧ 0 ≤ hedging ≤ Qc_of_nat 7
    ∧ 0 ≤ first_person_q ≤ Qc_of_nat 5.
Proof.
  apply (counting_rates_bounded (λ s, s)
           ["Maybe the answer is 42."; "I cannot help."]).
  discriminate.
Defined.

Lemma presence_rates_extremes_witness :
  ∃ refusal list_usage,
    get_metric (λ s, s) "refusal_rate"
      ["Maybe the answer is 42."; "I cannot help."] = Ok (Some (VNum refusal))
    ∧ get_metric (λ s, s) "list_usage_rate"
        ["Maybe the answer is 42."; "I cannot help."]
      = Ok (Some (VNum list_usage))
    ∧ (0 < refusal ↔
       ∃ r, r ∈ ["Maybe the answer is 42."; "I cannot help."]
            ∧ contains_any refusal_markers (lower r))
    ∧ (refusal = 1 ↔
       ∀ r, r ∈ ["Maybe the answer is 42."; "I cannot help."] →
            contains_any refusal_markers (lower r))
    ∧ (0 < list_usage ↔
       ∃ r, r ∈ ["Maybe the answer is 42."; "I cannot help."]
            ∧ contains_any list_markers r)
    ∧ (list_usage = 1 ↔
       ∀ r, r ∈ ["Maybe the answer is 42."; "I cannot help."] →
            contains_any list_markers r).
Proof.
  apply (presence_rates_extremes (λ s, s)
           ["Maybe the answer is 42."; "I cannot help."]).
  discriminate.
Defined.

Lemma counting_rates_pos_iff_witness :
  ∃ hedging first_person_q,
    get_metric (λ s, s) "hedging_rate"
      ["Maybe the answer is 42."; "I cannot help."] = Ok (Some (VNum hedging))
    ∧ get_metric (λ s, s) "first_person_rate"
        ["Maybe the answer is 42."; "I cannot help."]
      = Ok (Some (VNum first_person_q))
    ∧ (0 < hedging ↔
       ∃ r, r ∈ ["Maybe the answer is 42."; "I cannot help."]
            ∧ contains_any hedge_words (lower r))
    ∧ (0 < first_person_q ↔
       ∃ r, r ∈ ["Maybe the answer is 42."; "I cannot help."]
            ∧ contains_any first_person (lower r)).
Proof.
  apply (counting_rates_pos_iff (λ s, s)
           ["Maybe the answer is 42."; "I cannot help."]).
  discriminate.
Defined.

Lemma lexical_rates_case_insensitive_witness :
  get_metric (λ s, s) "hedging_rate" ["MAYBE I can't say."]
  = get_metric (λ s, s) "hedging_rate" ["maybe i CAN'T say."]
  ∧ get_metric (λ s, s) "refusal_rate" ["MAYBE I can't say."]
    = get_metric (λ s, s) "refusal_rate" ["maybe i CAN'T say."]
  ∧ get_metric (λ s, s) "first_person_rate" ["MAYBE I can't say."]
    = get_metric (λ s, s) "first_person_rate" ["maybe i CAN'T say."].
Proof.
  apply (lexical_rates_case_insensitive (λ s, s) ["MAYBE I can't say."]
           ["maybe i CAN'T say."]).
  reflexivity.
Defined.





Lemma changed_metrics_on_doubles_witness :
  ∃ r, Doubles.compare_fingerprints (Doubles.fingerprint_of Doubles.zeros_abc)
         (Doubles.fingerprint_of Doubles.current_abc) = Ok r
       ∧ ∀ k o n,
           Doubles.dict_get (Doubles.changed_metrics r) k = Some (o, n)
           ↔ k ≠ "response_hash"
             ∧ Doubles.dict_get Doubles.zeros_abc k = Some (Doubles.VFloat o)
             ∧ default (Doubles.VFloat o)
                 (Doubles.dict_get Doubles.current_abc k)
               = Doubles.VFloat n
             ∧ PrimFloat.ltb Doubles.tenth (Doubles.relative_difference o n)
               = true.
Proof.
  destruct (Doubles.compare_fingerprints
              (Doubles.fingerprint_of Doubles.zeros_abc)
              (Doubles.fingerprint_of Doubles.current_abc)) as [r|e] eqn:Hr.
  - exists r. split; [done|].
    apply (changed_metrics_on_doubles
             (Doubles.fingerprint_of Doubles.zeros_abc)
             (Doubles.fingerprint_of Doubles.current_abc) r); [|exact Hr].
    by apply (bool_decide_unpack _).
  - vm_compute in Hr. discriminate.
Defined.



Lemma no_changed_metric_no_drift_witness :
  ∃ r, compare_fingerprints unhashed_baseline unhashed_baseline = Ok r
       ∧ drift_detected r = false.
Proof.
  destruct (compare_fingerprints unhashed_baseline unhashed_baseline)
    as [r|e] eqn:Hr.
  - exists r. split; [done|].
    apply (no_changed_metric_no_drift unhashed_baseline unhashed_baseline r Hr).
    + vm_compute in Hr. injection Hr as <-. reflexivity.
    + reflexivity.
  - vm_compute in Hr. discriminate.
Defined.

Lemma collect_fingerprint_result_witness :
  ∃ fp, collect_fingerprint (λ s, s) "2024-01-01" unit
          (stateless (create_mock_model_fn "v1")) "mock-v1" tt = (Ok fp, tt)
        ∧ model fp = "mock-v1"
        ∧ timestamp fp = "2024-01-01"
        ∧ length (raw_responses fp) = length PROBES
        ∧ extract_metrics (λ s, s) (raw_responses fp) = Ok (metrics fp)
        ∧ dom (metrics fp)
          = {["avg_length"; "length_variance"; "avg_sentences"; "hedging_rate";
              "refusal_rate"; "list_usage_rate"; "first_person_rate";
              "response_hash"]}.
Proof.
  destruct (collect_fingerprint_stateless (S:=unit) (λ s, s) "2024-01-01"
              (create_mock_model_fn "v1") "mock-v1" tt) as (m & _ & Hcollect).
  eexists. split; [exact Hcollect|].
  exact (collect_fingerprint_result (λ s, s) "2024-01-01"
           (stateless (create_mock_model_fn "v1")) "mock-v1" tt tt _ Hcollect).
Defined.

Lemma collect_fingerprint_raises_model_errors_witness :
  ∃ probe s0,
    probe ∈ PROBES
    ∧ logged (λ _, Raise TypeError) probe s0
      = (Raise TypeError,
         ["Explain why the sky is blue in exactly 3 sentences."]%list).
Proof.
  apply (collect_fingerprint_raises_model_errors (λ s, s) "2024-01-01"
           (logged (λ _, Raise TypeError)) "failing" []
           ["Explain why the sky is blue in exactly 3 sentences."]%list TypeError).
  reflexivity.
Defined.

Lemma mock_v1_list_usage_witness :
  get_metric (λ s, s) "list_usage_rate" (create_mock_model_fn "v1" <$> PROBES)
  = Ok (Some (VNum 1)).
Proof. apply (mock_v1_list_usage (λ s, s) PROBES). discriminate. Defined.

Lemma mock_other_version_hedges_witness :
  ∃ hedging first_person_q,
    get_metric (λ s, s) "hedging_rate" (create_mock_model_fn "v2" <$> PROBES)
    = Ok (Some (VNum hedging))
    ∧ get_metric (λ s, s) "first_person_rate"
        (create_mock_model_fn "v2" <$> PROBES)
      = Ok (Some (VNum first_person_q))
    ∧ Qc_of_nat 3 ≤ hedging
    ∧ 1 ≤ first_person_q.
Proof.
  apply (mock_other_version_hedges (λ s, s) "v2" PROBES); discriminate.
Defined.
